(** * transform_projections.py: a shallow embedding and its properties

    The script reads a table of player projections, parses two text
    columns, ranks two numeric columns by percentile and writes an
    enriched table.  Floats are IEEE binary64 values, modelled by the
    standard library's [spec_float] with [prec = 53] and [emax = 1024]:
    every operation below computes, bit for bit, what the hardware does. *)

From Stdlib Require Import ZArith NArith List Bool Lia Ascii String.
From Stdlib Require Import Permutation Sorted.
From Stdlib Require Import SpecFloat DecimalString DecimalN.
Import ListNotations.

Local Open Scope Z_scope.

(** ** Binary64 *)

Module F64.

Definition prec : Z := 53.
Definition emax : Z := 1024.

Abbreviation float := spec_float.

Definition nan : float := S754_nan.
Definition of_Z (z : Z) : float := binary_normalize prec emax z 0 false.
Definition of_nat (n : nat) : float := of_Z (Z.of_nat n).

Definition add : float -> float -> float := SFadd prec emax.
Definition sub : float -> float -> float := SFsub prec emax.
Definition mul : float -> float -> float := SFmul prec emax.
Definition div : float -> float -> float := SFdiv prec emax.
Definition eqb : float -> float -> bool := SFeqb.
Definition ltb : float -> float -> bool := SFltb.
Definition leb : float -> float -> bool := SFleb.

Definition is_nan (x : float) : bool :=
  match x with S754_nan => true | _ => false end.

Definition is_zero (x : float) : bool :=
  match x with S754_zero _ => true | _ => false end.

Definition is_inf (x : float) : bool :=
  match x with S754_infinity _ => true | _ => false end.

Definition zero : float := S754_zero false.
Definition one : float := Eval vm_compute in of_Z 1.
Definition half : float := Eval vm_compute in div (of_Z 1) (of_Z 2).
Definition hundred : float := Eval vm_compute in of_Z 100.
Definition thousand : float := Eval vm_compute in of_Z 1000.

End F64.

Abbreviation float := spec_float.

(** ** The percentile ranker *)

(** [np.sort] orders floats ascending with every NaN after every number;
    its comparison is [a < b or (b != b and a == a)]. *)
Definition np_lt (a b : float) : bool :=
  F64.ltb a b || (F64.is_nan b && negb (F64.is_nan a)).

Fixpoint np_insert (x : float) (s : list float) : list float :=
  match s with
  | [] => [x]
  | y :: s' => if np_lt y x then y :: np_insert x s' else x :: s
  end.

(** The sorted copy.  Which sorting method produces it does not matter to
    the ranks: see [rank_of_by_count], which holds of every sorted
    rearrangement. *)
Fixpoint np_sort (l : list float) : list float :=
  match l with
  | [] => []
  | x :: l' => np_insert x (np_sort l')
  end.

(** [np.where(sorted_vals == x)[0]]: the ascending list of the indices
    whose element compares equal to [x]. *)
Fixpoint np_where_eq_from (k : nat) (s : list float) (x : float) : list nat :=
  match s with
  | [] => []
  | y :: s' =>
      if F64.eqb y x then k :: np_where_eq_from (S k) s' x
      else np_where_eq_from (S k) s' x
  end.

Definition np_where_eq (s : list float) (x : float) : list nat :=
  np_where_eq_from 0 s x.

(** The body of the loop of [percentrank_inc], for one value [x]. *)
Definition rank_of (sorted_vals : list float) (n : nat) (use_first : bool)
    (x : float) : float :=
  let idxs := np_where_eq sorted_vals x in
  match idxs with
  | [] => F64.half
  | i0 :: _ =>
      let idx := if use_first then i0 else last idxs i0 in
      F64.div (F64.of_nat idx) (F64.of_nat (n - 1))
  end.

Definition percentrank_inc (values : list float) (use_first : bool)
    : list float :=
  let sorted_vals := np_sort values in
  let n := List.length sorted_vals in
  if (n <=? 1)%nat then map (fun _ => F64.zero) values
  else map (rank_of sorted_vals n use_first) values.

(** ** Python strings

    A Python [str] is a sequence of code points.  A Rocq [string] is read
    as the text of its characters. *)

Definition pystr : Type := list N.

Definition ch (a : ascii) : N := N_of_ascii a.

Definition of_string (s : string) : pystr :=
  map N_of_ascii (list_ascii_of_string s).

Coercion of_string : string >-> pystr.
Bind Scope string_scope with pystr.

Fixpoint pystr_eqb (a b : pystr) : bool :=
  match a, b with
  | [], [] => true
  | c :: a', d :: b' => N.eqb c d && pystr_eqb a' b'
  | _, _ => false
  end.

(** [str.isspace] on one code point: tab to carriage return, the four
    separators 0x1C to 0x1F, space, NEL, the no-break space and the
    spaces of the higher planes. *)
Definition is_space (c : N) : bool :=
  ((9 <=? c) && (c <=? 13) || (28 <=? c) && (c <=? 32)
   || (c =? 0x85) || (c =? 0xa0) || (c =? 0x1680)
   || (0x2000 <=? c) && (c <=? 0x200a)
   || (c =? 0x2028) || (c =? 0x2029) || (c =? 0x202f) || (c =? 0x205f)
   || (c =? 0x3000))%N.

(** Stripping the characters that satisfy [sp] from both ends. *)
Fixpoint lstrip_by (sp : N -> bool) (s : pystr) : pystr :=
  match s with
  | c :: s' => if sp c then lstrip_by sp s' else s
  | [] => []
  end.

Fixpoint rstrip_by (sp : N -> bool) (s : pystr) : pystr :=
  match s with
  | [] => []
  | c :: s' =>
      match rstrip_by sp s' with
      | [] => if sp c then [] else [c]
      | r => c :: r
      end
  end.

Definition strip_by (sp : N -> bool) (s : pystr) : pystr :=
  rstrip_by sp (lstrip_by sp s).

(** [s.strip()] *)
Definition strip (s : pystr) : pystr := strip_by is_space s.

(** [s.replace(c, "")] for a one-character [c]. *)
Fixpoint remove_char (c : N) (s : pystr) : pystr :=
  match s with
  | [] => []
  | d :: s' =>
      if N.eqb d c then remove_char c s' else d :: remove_char c s'
  end.

(** ** Python's [float(str)]

    CPython first rewrites the text in ASCII: a code point below 127 is
    kept, a white space becomes a space, a decimal digit of any script
    becomes its ASCII digit, and at any other code point the text is cut
    and ends in a question mark.  The ASCII text is stripped of the C
    white space (tab to carriage return, and space: not 0x1C to 0x1F),
    underscores between digits are dropped, and the rest must be, as a
    whole, a signed decimal numeral with an optional fraction and
    exponent, or one of [inf], [infinity], [nan] in any case.  The numeral
    is rounded to the nearest binary64, ties to even. *)

(** The first code point of each run of ten decimal digits (Unicode 14.0,
    as in CPython 3.11). *)
Definition decimal_starts : list N :=
  [0x30; 0x660; 0x6f0; 0x7c0; 0x966; 0x9e6; 0xa66; 0xae6; 0xb66; 0xbe6;
   0xc66; 0xce6; 0xd66; 0xde6; 0xe50; 0xed0; 0xf20; 0x1040; 0x1090; 0x17e0;
   0x1810; 0x1946; 0x19d0; 0x1a80; 0x1a90; 0x1b50; 0x1bb0; 0x1c40; 0x1c50;
   0xa620; 0xa8d0; 0xa900; 0xa9d0; 0xa9f0; 0xaa50; 0xabf0; 0xff10; 0x104a0;
   0x10d30; 0x11066; 0x110f0; 0x11136; 0x111d0; 0x112f0; 0x11450; 0x114d0;
   0x11650; 0x116c0; 0x11730; 0x118e0; 0x11950; 0x11c50; 0x11d50; 0x11da0;
   0x16a60; 0x16ac0; 0x16b50; 0x1d7ce; 0x1d7d8; 0x1d7e2; 0x1d7ec; 0x1d7f6;
   0x1e140; 0x1e2f0; 0x1e950; 0x1fbf0]%N.

Fixpoint find_decimal (starts : list N) (c : N) : option N :=
  match starts with
  | [] => None
  | s :: rest =>
      if ((s <=? c) && (c <? s + 10))%N then Some (c - s)%N
      else find_decimal rest c
  end.

(** [Py_UNICODE_TODECIMAL] *)
Definition unicode_decimal (c : N) : option N := find_decimal decimal_starts c.

(** What one code point becomes in the ASCII text; [None] where the text
    is cut. *)
Definition ascii_of (c : N) : option N :=
  if (c <? 127)%N then Some c
  else if is_space c then Some (ch " ")
  else match unicode_decimal c with
       | Some v => Some (48 + v)%N
       | None => None
       end.

(** [_PyUnicode_TransformDecimalAndSpaceToASCII] *)
Fixpoint to_ascii (s : pystr) : pystr :=
  match s with
  | [] => []
  | c :: s' =>
      match ascii_of c with
      | Some a => a :: to_ascii s'
      | None => [ch "?"]
      end
  end.

(** [Py_ISSPACE] *)
Definition is_c_space (c : N) : bool :=
  ((9 <=? c) && (c <=? 13) || (c =? 32))%N.

Definition is_digit (c : N) : bool := ((48 <=? c) && (c <=? 57))%N.

Definition digit_val (c : N) : Z := Z.of_N c - 48.

Definition lower (c : N) : N :=
  if ((65 <=? c) && (c <=? 90))%N then (c + 32)%N else c.

Definition lower_str (s : pystr) : pystr := map lower s.

Fixpoint drop_underscores (prev : N) (s : pystr) : option pystr :=
  match s with
  | [] => if N.eqb prev (ch "_") then None else Some []
  | c :: s' =>
      if N.eqb c (ch "_") then
        if is_digit prev then drop_underscores c s' else None
      else if N.eqb prev (ch "_") && negb (is_digit c) then None
      else option_map (cons c) (drop_underscores c s')
  end.

(** Reads a run of digits: the number read so far, how many digits were
    read, and the rest of the text. *)
Fixpoint read_digits (s : pystr) (acc : Z) (cnt : Z) : Z * Z * pystr :=
  match s with
  | c :: s' =>
      if is_digit c then read_digits s' (10 * acc + digit_val c) (cnt + 1)
      else (acc, cnt, s)
  | [] => (acc, cnt, s)
  end.

Definition read_sign (s : pystr) : bool * pystr :=
  match s with
  | c :: s' =>
      if N.eqb c (ch "-") then (true, s')
      else if N.eqb c (ch "+") then (false, s')
      else (false, s)
  | [] => (false, s)
  end.

(** The binary64 nearest to [(-1)^sg * m * 10^e10]. *)
Definition decimal_to_float (sg : bool) (m : Z) (e10 : Z) : float :=
  match m with
  | Zpos p =>
      if 0 <=? e10 then
        binary_normalize F64.prec F64.emax
          (cond_Zopp sg (m * 10 ^ e10)) 0 false
      else
        F64.div (S754_finite sg p 0)
                (S754_finite false (Z.to_pos (10 ^ (- e10))) 0)
  | _ => S754_zero sg
  end.

Definition read_exponent (s : pystr) : option Z :=
  match s with
  | [] => Some 0
  | c :: s' =>
      if N.eqb (lower c) (ch "e") then
        let '(sg, s1) := read_sign s' in
        let '(e, cnt, rest) := read_digits s1 0 0 in
        match rest with
        | [] => if 0 <? cnt then Some (cond_Zopp sg e) else None
        | _ => None
        end
      else None
  end.

Definition read_decimal (sg : bool) (s : pystr) : option float :=
  let '(ip, n1, s1) := read_digits s 0 0 in
  let '(m, n2, s2) :=
    match s1 with
    | c :: s1' =>
        if N.eqb c (ch ".") then
          let '(m, n, rest) := read_digits s1' ip 0 in (m, n, rest)
        else (ip, 0, s1)
    | [] => (ip, 0, s1)
    end in
  if 0 <? n1 + n2 then
    match read_exponent s2 with
    | Some e => Some (decimal_to_float sg m (e - n2))
    | None => None
    end
  else None.

Definition read_inf_or_nan (sg : bool) (s : pystr) : option float :=
  let t := lower_str s in
  if pystr_eqb t "inf" || pystr_eqb t "infinity" then Some (S754_infinity sg)
  else if pystr_eqb t "nan" then Some F64.nan
  else None.

(** The numeral grammar, on ASCII text already stripped. *)
Definition read_float (s : pystr) : option float :=
  match drop_underscores 0%N s with
  | None => None
  | Some t =>
      let '(sg, body) := read_sign t in
      match read_decimal sg body with
      | Some x => Some x
      | None => read_inf_or_nan sg body
      end
  end.

(** [float(s)]: [None] stands for [ValueError]. *)
Definition py_float (s : pystr) : option float :=
  read_float (strip_by is_c_space (to_ascii s)).

(** ** The field parsers *)

(** A raw cell of a text column: [None], the float NaN that pandas puts in
    an empty cell, or text. *)
Inductive cell : Type :=
  | PyNone
  | PyNaN
  | PyStr (s : pystr).

(** [pd.isna] *)
Definition isna (s : cell) : bool :=
  match s with
  | PyStr _ => false
  | _ => true
  end.

Definition parse_salary (s : cell) : float :=
  match s with
  | PyStr t =>
      let t := strip t in
      let t := remove_char (ch ",") (remove_char (ch "$") t) in
      match py_float t with
      | Some x => x
      | None => F64.nan
      end
  | _ => F64.nan
  end.

Definition parse_percent_str (s : cell) : float :=
  match s with
  | PyStr t =>
      let t := remove_char (ch "%") (strip t) in
      if pystr_eqb t "" then F64.zero
      else match py_float t with
           | Some x => x
           | None => F64.zero
           end
  | _ => F64.zero
  end.

(** ** Rounding and formatting *)

(** Nearest integer of [num / den], ties to even, for [0 <= num], [0 < den]. *)
Definition div_half_even (num den : Z) : Z :=
  let q := num / den in
  let r := num mod den in
  if (den <? 2 * r) || ((2 * r =? den) && Z.odd q) then q + 1 else q.

(** [np.rint]: the nearest integral float, ties to even; the sign is kept. *)
Definition rint (x : float) : float :=
  match x with
  | S754_finite s m e =>
      if 0 <=? e then x
      else
        let q := div_half_even (Zpos m) (2 ^ (- e)) in
        if q =? 0 then S754_zero s
        else binary_normalize F64.prec F64.emax (cond_Zopp s q) 0 false
  | _ => x
  end.

(** [ndarray.round(decimals)] on floats: scale by the power of ten, [rint],
    scale back; with no decimals, [rint] alone. *)
Definition np_round (decimals : nat) (x : float) : float :=
  match decimals with
  | O => rint x
  | _ =>
      let f := F64.of_Z (10 ^ Z.of_nat decimals) in
      F64.div (rint (F64.mul x f)) f
  end.

Definition str_of_Z (z : Z) : string :=
  let d := NilZero.string_of_uint (N.to_uint (Z.to_N (Z.abs z))) in
  if z <? 0 then String "-" d else d.

Fixpoint zeros (n : nat) : string :=
  match n with
  | O => EmptyString
  | S n' => String "0" (zeros n')
  end.

Definition zfill (width : nat) (s : string) : string :=
  append (zeros (width - String.length s)) s.

(** Groups of three digits, counted from the right, separated by commas. *)
Fixpoint group3_rev (l : list ascii) (k : nat) : list ascii :=
  match l with
  | [] => []
  | c :: l' =>
      match k, l' with
      | 2%nat, _ :: _ => c :: ","%char :: group3_rev l' 0
      | _, _ => c :: group3_rev l' (S k)
      end
  end.

Definition group3 (s : string) : string :=
  string_of_list_ascii (rev (group3_rev (rev (list_ascii_of_string s)) 0)).

(** The nearest integer to [|x| * 10^d], ties to even, of a finite [x]. *)
Definition scaled_round (d : nat) (x : float) : Z :=
  match x with
  | S754_finite _ m e =>
      let num := Zpos m * 10 ^ Z.of_nat d in
      if 0 <=? e then num * 2 ^ e else div_half_even num (2 ^ (- e))
  | _ => 0
  end.

Definition sign_bit (x : float) : bool :=
  match x with
  | S754_zero s | S754_infinity s | S754_finite s _ _ => s
  | S754_nan => false
  end.

(** [format(x, ".df")], and [format(x, ",.df")] when [grouping] is set. *)
Definition format_f (grouping : bool) (d : nat) (x : float) : string :=
  match x with
  | S754_nan => "nan"%string
  | S754_infinity s => if s then "-inf"%string else "inf"%string
  | _ =>
      let n := scaled_round d x in
      let p := 10 ^ Z.of_nat d in
      let ip := str_of_Z (n / p) in
      let ip := if grouping then group3 ip else ip in
      let fp :=
        match d with
        | O => EmptyString
        | _ => String "." (zfill d (str_of_Z (n mod p)))
        end in
      append (if sign_bit x then "-" else "")%string (append ip fp)
  end.

(** ** Exceptions *)

Inductive exn : Type :=
  | KeyError (missing : list string)
  | ValueError
  | OverflowError
  | FileNotFoundError (path : string).

Inductive result (A : Type) : Type :=
  | Ok (a : A)
  | Raise (e : exn).

Arguments Ok {A} a.
Arguments Raise {A} e.

Definition bind {A B : Type} (r : result A) (k : A -> result B) : result B :=
  match r with
  | Ok a => k a
  | Raise e => Raise e
  end.

Notation "x <- r ;; k" := (bind r (fun x => k))
  (at level 61, r at next level, right associativity).

Fixpoint mapM {A B : Type} (f : A -> result B) (l : list A) : result (list B) :=
  match l with
  | [] => Ok []
  | a :: l' => b <- f a ;; bs <- mapM f l' ;; Ok (b :: bs)
  end.

(** [int(x)] of a float: truncation; NaN and the infinities raise. *)
Definition py_int (x : float) : result Z :=
  match x with
  | S754_nan => Raise ValueError
  | S754_infinity _ => Raise OverflowError
  | S754_zero _ => Ok 0
  | S754_finite s m e =>
      Ok (cond_Zopp s (if 0 <=? e then Zpos m * 2 ^ e else Zpos m / 2 ^ (- e)))
  end.

(** Element-wise operation on two aligned columns. *)
Fixpoint map2 {A B C : Type} (f : A -> B -> C) (l : list A) (l' : list B)
    : list C :=
  match l, l' with
  | a :: t, b :: t' => f a b :: map2 f t t'
  | _, _ => []
  end.

(** ** The table and the transform *)

(** The input table, as [pd.read_csv] hands it over: a column is present
    or not; the two text columns hold raw cells, the numeric columns hold
    floats (NaN for an empty cell), the others are passed through. *)
Record DataFrame : Type := {
  Player : option (list string);
  DK_Pos : option (list string);
  Team : option (list string);
  Opp : option (list string);
  DK_Salary : option (list cell);
  DK_Proj : option (list float);
  DK_Value : option (list float);
  Small_Field : option (list cell);
  Large_Field : option (list cell);
  DK_Floor : option (list float);
  DK_Ceiling : option (list float);
  id_ : option (list string)
}.

(** The table handed to [to_csv], under the names of the written header. *)
Record OutFrame : Type := {
  out_Player : list string;
  out_DK_Pos : list string;
  out_Team : list string;
  out_Opp : list string;
  out_DK_Salary : list string;
  out_DK_Proj : list float;
  out_DK_Value : list float;
  out_OWN_FRAC : list float;
  out_DK_Floor : list float;
  out_DK_Ceiling : list float;
  out_LEVERAGE_SCORE : list float;
  out_VALUE_PER_1k : list string;
  out_CEILING_PCT_RANK : list string;
  out_OWNERSHIP_PCT_RANK : list string;
  out_leverage_delta : list string;
  out_id : list string
}.

Definition is_some {A : Type} (o : option A) : bool :=
  match o with Some _ => true | None => false end.

(** [name in df.columns] *)
Definition has_column (df : DataFrame) (name : string) : bool :=
  if String.eqb name "Player" then is_some (Player df)
  else if String.eqb name "DK Pos" then is_some (DK_Pos df)
  else if String.eqb name "Team" then is_some (Team df)
  else if String.eqb name "Opp" then is_some (Opp df)
  else if String.eqb name "DK Salary" then is_some (DK_Salary df)
  else if String.eqb name "DK Proj" then is_some (DK_Proj df)
  else if String.eqb name "DK Value" then is_some (DK_Value df)
  else if String.eqb name "Small Field" then is_some (Small_Field df)
  else if String.eqb name "Large Field" then is_some (Large_Field df)
  else if String.eqb name "DK Floor" then is_some (DK_Floor df)
  else if String.eqb name "DK Ceiling" then is_some (DK_Ceiling df)
  else if String.eqb name "id" then is_some (id_ df)
  else false.

(** [df[name]] *)
Definition getitem {A : Type} (name : string) (col : option A) : result A :=
  match col with
  | Some c => Ok c
  | None => Raise (KeyError [name])
  end.

Definition notna (x : float) : bool := negb (F64.is_nan x).

Definition salary_num (salary : list cell) : list float :=
  map parse_salary salary.

Definition large_field_pct (large_field : list cell) : list float :=
  map parse_percent_str large_field.

Definition OWN_FRAC (pct : list float) : list float :=
  map (fun p => np_round 2 (F64.div p F64.hundred)) pct.

Definition LEVERAGE_SCORE (ceiling pct : list float) : list float :=
  map2 F64.mul ceiling
    (map (fun p => F64.sub F64.one (F64.div p F64.hundred)) pct).

Definition VALUE_PER_1k_raw (proj salary : list float) : list float :=
  map2 F64.div proj (map (fun s => F64.div s F64.thousand) salary).

Definition CEILING_PCT_RANK (ceiling : list float) : list float :=
  map (fun r => np_round 2 (F64.mul r F64.hundred))
      (percentrank_inc ceiling false).

Definition OWNERSHIP_PCT_RANK (pct : list float) : list float :=
  map (fun r => np_round 0 (F64.mul r F64.hundred))
      (percentrank_inc pct true).

Definition leverage_delta_raw (ceiling pct : list float) : list float :=
  map2 F64.sub (CEILING_PCT_RANK ceiling) (OWNERSHIP_PCT_RANK pct).

Definition DK_Salary_out (salary : list float) : list string :=
  map (fun x => if notna x then String "$" (format_f true 2 x)
                else EmptyString) salary.

Definition VALUE_PER_1k (raw : list float) : list string :=
  map (fun x => if notna x then String "$" (format_f false 2 x)
                else EmptyString) raw.

Definition CEILING_PCT_RANK_out (rank : list float) : list string :=
  map (fun x => append (format_f false 2 x) "%") rank.

Definition OWNERSHIP_PCT_RANK_out (rank : list float) : result (list string) :=
  mapM (fun x => n <- py_int x ;; Ok (append (str_of_Z n) "%")) rank.

Definition leverage_delta_out (delta : list float) : list string :=
  map (fun x => append (format_f false 1 x) "%") delta.

(** The input columns that [df[out_cols]] selects. *)
Definition out_cols_read : list string :=
  ["Player"; "DK Pos"; "Team"; "Opp"; "DK Proj"; "DK Value"; "DK Floor";
   "DK Ceiling"; "id"]%string.

(** Lines 83 to 166 of [transform]: from the table read to the table
    written.  The renaming of line 83 maps every name to itself. *)
Definition transform_frame (df : DataFrame) : result OutFrame :=
  salary <- getitem "DK Salary" (DK_Salary df) ;;
  let salary := salary_num salary in
  large <- getitem "Large Field" (Large_Field df) ;;
  let pct := large_field_pct large in
  let own := OWN_FRAC pct in
  ceiling <- getitem "DK Ceiling" (DK_Ceiling df) ;;
  let lev := LEVERAGE_SCORE ceiling pct in
  proj <- getitem "DK Proj" (DK_Proj df) ;;
  let value := VALUE_PER_1k_raw proj salary in
  let crank := CEILING_PCT_RANK ceiling in
  let orank := OWNERSHIP_PCT_RANK pct in
  let delta := leverage_delta_raw ceiling pct in
  let salary_out := DK_Salary_out salary in
  let value_out := VALUE_PER_1k value in
  let crank_out := CEILING_PCT_RANK_out crank in
  orank_out <- OWNERSHIP_PCT_RANK_out orank ;;
  let delta_out := leverage_delta_out delta in
  match Player df, DK_Pos df, Team df, Opp df,
        DK_Value df, DK_Floor df, id_ df with
  | Some player, Some pos, Some team, Some opp,
    Some dk_value, Some floor, Some ident =>
      Ok {| out_Player := player;
            out_DK_Pos := pos;
            out_Team := team;
            out_Opp := opp;
            out_DK_Salary := salary_out;
            out_DK_Proj := proj;
            out_DK_Value := dk_value;
            out_OWN_FRAC := own;
            out_DK_Floor := floor;
            out_DK_Ceiling := ceiling;
            out_LEVERAGE_SCORE := lev;
            out_VALUE_PER_1k := value_out;
            out_CEILING_PCT_RANK := crank_out;
            out_OWNERSHIP_PCT_RANK := orank_out;
            out_leverage_delta := delta_out;
            out_id := ident |}
  | _, _, _, _, _, _, _ =>
      Raise (KeyError
               (filter (fun c => negb (has_column df c)) out_cols_read))
  end.

(** The files that can be read, the calls of [to_csv] so far, and the
    lines printed. *)
Record world : Type := {
  fs : list (string * DataFrame);
  written : list (string * OutFrame);
  stdout : list string
}.

Fixpoint read_csv (files : list (string * DataFrame)) (path : string)
    : result DataFrame :=
  match files with
  | [] => Raise (FileNotFoundError path)
  | (p, df) :: files' =>
      if String.eqb p path then Ok df else read_csv files' path
  end.

Definition transform (input_csv output_csv : string) (w : world)
    : world * result unit :=
  match df <- read_csv (fs w) input_csv ;; transform_frame df with
  | Raise e => (w, Raise e)
  | Ok out =>
      ({| fs := fs w;
          written := written w ++ [(output_csv, out)];
          stdout := stdout w ++
            [append "Saved transformed projections (large field) to "
                    output_csv] |},
       Ok tt)
  end.

(** ** The ranker as the specification words it

    The position of a value in the sorted sequence: an index whose element
    compares equal to it, the first such index or the last. *)

Definition is_match (s : list float) (x : float) (j : nat) : bool :=
  match nth_error s j with
  | Some y => F64.eqb y x
  | None => false
  end.

Definition first_match (s : list float) (x : float) (j : nat) : bool :=
  is_match s x j && forallb (fun k => negb (is_match s x k)) (seq 0 j).

Definition last_match (s : list float) (x : float) (j : nat) : bool :=
  is_match s x j &&
  forallb (fun k => negb (is_match s x k)) (seq (S j) (List.length s - S j)).

Definition tie_break_match (use_first : bool) : list float -> float -> nat -> bool :=
  if use_first then first_match else last_match.

(** How many elements of [l] are below [x], and how many equal it. *)
Definition count_lt (x : float) (l : list float) : nat :=
  List.length (filter (fun y => F64.ltb y x) l).

Definition count_eq (x : float) (l : list float) : nat :=
  List.length (filter (fun y => F64.eqb y x) l).

(** The rank of [x] from the counts alone: no sorted copy is needed. *)
Definition rank_by_count (l : list float) (use_first : bool) (x : float)
    : float :=
  match count_eq x l with
  | O => F64.half
  | S c =>
      let idx := if use_first then count_lt x l else (count_lt x l + c)%nat in
      F64.div (F64.of_nat idx) (F64.of_nat (List.length l - 1))
  end.

(** How many elements of [l] are NaN. *)
Definition count_nan (l : list float) : nat :=
  List.length (filter F64.is_nan l).

(** No two elements of [l] compare equal. *)
Definition no_ties (l : list float) : bool :=
  forallb (fun x => (count_eq x l <=? 1)%nat) l.

(** Every column the transform reads is present with [n] rows. *)
Definition col_rows {A : Type} (n : nat) (col : option (list A)) : bool :=
  match col with
  | Some c => (List.length c =? n)%nat
  | None => false
  end.

Definition has_rows (n : nat) (df : DataFrame) : bool :=
  col_rows n (Player df) && col_rows n (DK_Pos df) && col_rows n (Team df)
  && col_rows n (Opp df) && col_rows n (DK_Salary df)
  && col_rows n (DK_Proj df) && col_rows n (DK_Value df)
  && col_rows n (Large_Field df) && col_rows n (DK_Floor df)
  && col_rows n (DK_Ceiling df) && col_rows n (id_ df).

(** Every written column has [n] rows. *)
Definition out_has_rows (n : nat) (out : OutFrame) : bool :=
  (List.length (out_Player out) =? n)%nat
  && (List.length (out_DK_Pos out) =? n)%nat
  && (List.length (out_Team out) =? n)%nat
  && (List.length (out_Opp out) =? n)%nat
  && (List.length (out_DK_Salary out) =? n)%nat
  && (List.length (out_DK_Proj out) =? n)%nat
  && (List.length (out_DK_Value out) =? n)%nat
  && (List.length (out_OWN_FRAC out) =? n)%nat
  && (List.length (out_DK_Floor out) =? n)%nat
  && (List.length (out_DK_Ceiling out) =? n)%nat
  && (List.length (out_LEVERAGE_SCORE out) =? n)%nat
  && (List.length (out_VALUE_PER_1k out) =? n)%nat
  && (List.length (out_CEILING_PCT_RANK out) =? n)%nat
  && (List.length (out_OWNERSHIP_PCT_RANK out) =? n)%nat
  && (List.length (out_leverage_delta out) =? n)%nat
  && (List.length (out_id out) =? n)%nat.

(** The table with its "Small Field" column replaced. *)
Definition with_Small_Field (small : option (list cell)) (df : DataFrame)
    : DataFrame :=
  {| Player := Player df; DK_Pos := DK_Pos df; Team := Team df;
     Opp := Opp df; DK_Salary := DK_Salary df; DK_Proj := DK_Proj df;
     DK_Value := DK_Value df; Small_Field := small;
     Large_Field := Large_Field df; DK_Floor := DK_Floor df;
     DK_Ceiling := DK_Ceiling df; id_ := id_ df |}.

(** The number a run of digits denotes, continuing from [acc]. *)
Fixpoint digits_value (s : pystr) (acc : Z) : Z :=
  match s with
  | [] => acc
  | c :: s' => digits_value s' (10 * acc + digit_val c)
  end.

(** The characters of a formatted number: digits, the minus sign and the
    decimal point. *)
Definition plain_char (c : N) : bool :=
  is_digit c || N.eqb c (ch "-") || N.eqb c (ch ".").

(** The order of [np.sort]: not after. *)
Definition np_le (a b : float) : Prop := np_lt b a = false.

(** Three integers that order the floats as [np.sort] does: the class
    (negative infinity, negative, zero, positive, positive infinity, NaN),
    then exponent and mantissa, both negated for a negative number. *)
Definition k1 (x : float) : Z :=
  match x with
  | S754_infinity true => 0
  | S754_finite true _ _ => 1
  | S754_zero _ => 2
  | S754_finite false _ _ => 3
  | S754_infinity false => 4
  | S754_nan => 5
  end.

Definition k2 (x : float) : Z :=
  match x with
  | S754_finite s _ e => if s then - e else e
  | _ => 0
  end.

Definition k3 (x : float) : Z :=
  match x with
  | S754_finite s m _ => if s then Zneg m else Zpos m
  | _ => 0
  end.

Definition key_lt (x y : float) : Prop :=
  k1 x < k1 y \/
  (k1 x = k1 y /\ (k2 x < k2 y \/ (k2 x = k2 y /\ k3 x < k3 y))).

Definition key_eq (x y : float) : Prop :=
  k1 x = k1 y /\ k2 x = k2 y /\ k3 x = k3 y.

(** [values[p[0]], values[p[1]], ...]: the sequence taken in the order [p]. *)
Definition permute {A : Type} (d : A) (p : list nat) (l : list A) : list A :=
  map (fun j => nth j l d) p.

(** Text that is empty once the percent symbol and white space are taken
    out of it. *)
Definition blank_percent (t : pystr) : bool :=
  forallb (fun c => is_space c || N.eqb c (ch "%")) t.

(** Text without the four separator control characters 0x1C to 0x1F, which
    [str.strip] takes for white space and [float] does not. *)
Definition no_separators (t : pystr) : bool :=
  forallb (fun c => negb ((28 <=? c) && (c <=? 31))%N) t.

(** Code points up to the space. *)
Definition low_char (c : N) : bool := (c <=? 32)%N.

(** The input columns the transform reads, in the order it reads them:
    lines 86, 89, 95 and 98, then the selection of line 158. *)
Definition columns_read : list string :=
  ["DK Salary"; "Large Field"; "DK Ceiling"; "DK Proj"; "Player"; "DK Pos";
   "Team"; "Opp"; "DK Value"; "DK Floor"; "id"]%string.

(** The required input columns as the specification lists them. *)
Definition spec_required_columns : list string :=
  ["Player"; "DK Pos"; "Team"; "Opp"; "DK Salary"; "DK Proj"; "DK Value";
   "Small Field"; "Large Field"; "DK Floor"; "DK Ceiling"; "id"]%string.

(** ** Sample tables *)

Definition two_rows (small : option (list cell)) (ceiling : list float)
    : DataFrame :=
  {| Player := Some ["A"; "B"]%string;
     DK_Pos := Some ["QB"; "WR"]%string;
     Team := Some ["X"; "Y"]%string;
     Opp := Some ["Y"; "X"]%string;
     DK_Salary := Some [PyStr "$5,600 "; PyStr "$4,000"];
     DK_Proj := Some [F64.of_Z 14; F64.of_Z 8];
     DK_Value := Some [F64.of_Z 2; F64.of_Z 2];
     Small_Field := small;
     Large_Field := Some [PyStr "50%"; PyStr "50%"];
     DK_Floor := Some [F64.of_Z 3; F64.of_Z 1];
     DK_Ceiling := Some ceiling;
     id_ := Some ["1"; "2"]%string |}.

Definition sample_table : DataFrame :=
  two_rows (Some [PyStr "40%"; PyStr "60%"]) [F64.of_Z 10; F64.of_Z 20].

Definition sample_missing_ceiling : DataFrame :=
  two_rows (Some [PyStr "40%"; PyStr "60%"]) [F64.of_Z 10; F64.nan].

Definition sample_no_small_field : DataFrame :=
  two_rows None [F64.of_Z 10; F64.of_Z 20].

Definition four_values : list float :=
  [F64.of_Z 1; F64.of_Z 2; F64.of_Z 3; F64.of_Z 4].

Definition third : float := F64.div (F64.of_Z 1) (F64.of_Z 3).

Definition table_without_floor : DataFrame :=
  {| Player := Some []; DK_Pos := Some []; Team := Some []; Opp := Some [];
     DK_Salary := Some []; DK_Proj := Some []; DK_Value := Some [];
     Small_Field := Some []; Large_Field := Some []; DK_Floor := None;
     DK_Ceiling := Some []; id_ := Some [] |}.

Definition sample_world (df : DataFrame) : world :=
  {| fs := [("in.csv"%string, df)]; written := []; stdout := [] |}.

Definition one_row_table : DataFrame :=
  {| Player := Some ["A"%string]; DK_Pos := Some ["QB"%string];
     Team := Some ["X"%string]; Opp := Some ["Y"%string];
     DK_Salary := Some [PyNaN]; DK_Proj := Some [F64.of_Z 14];
     DK_Value := Some [F64.of_Z 2]; Small_Field := None;
     Large_Field := Some [PyStr "12.5%"]; DK_Floor := Some [F64.of_Z 3];
     DK_Ceiling := Some [F64.nan]; id_ := Some ["1"%string] |}.

(** * Properties *)

(** ** Indices found by [np.where] *)

Lemma np_where_eq_from_In (s : list float) (x : float) :
  forall k j, In j (np_where_eq_from k s x) <->
              (k <= j)%nat /\ is_match s x (j - k) = true.
Proof.
  induction s as [|y s IH]; intros k j; simpl.
  - unfold is_match. destruct (j - k)%nat; simpl; intuition discriminate.
  - assert (Hc : (k <= j)%nat /\ is_match (y :: s) x (j - k) = true <->
                 (j = k /\ F64.eqb y x = true) \/
                 ((S k <= j)%nat /\ is_match s x (j - S k) = true)).
    { unfold is_match. split.
      - intros [Hle Hm]. destruct (j - k)%nat as [|d] eqn:E; simpl in Hm.
        + left. split; [lia | exact Hm].
        + right. split; [lia|]. replace (j - S k)%nat with d by lia. exact Hm.
      - intros [[-> Hm] | [Hle Hm]].
        + split; [lia|]. rewrite Nat.sub_diag. exact Hm.
        + split; [lia|]. replace (j - k)%nat with (S (j - S k)) by lia.
          exact Hm. }
    rewrite Hc. destruct (F64.eqb y x) eqn:E; simpl; rewrite IH.
    + intuition.
    + intuition discriminate.
Qed.

Lemma np_where_eq_from_sorted (s : list float) (x : float) :
  forall k, StronglySorted lt (np_where_eq_from k s x).
Proof.
  induction s as [|y s IH]; intros k; simpl.
  - constructor.
  - destruct (F64.eqb y x).
    + constructor; [apply IH|]. apply Forall_forall. intros j Hj.
      apply np_where_eq_from_In in Hj. lia.
    + apply IH.
Qed.

Lemma sorted_head_least (i0 : nat) (l : list nat) :
  StronglySorted lt (i0 :: l) -> forall j, In j (i0 :: l) -> (i0 <= j)%nat.
Proof.
  intros H j [<- | Hj]; [lia|].
  inversion H as [|? ? _ Hall]; subst.
  rewrite Forall_forall in Hall. specialize (Hall j Hj). lia.
Qed.

Lemma sorted_last_greatest (l : list nat) (d : nat) :
  StronglySorted lt l -> forall j, In j l -> (j <= last l d)%nat.
Proof.
  induction l as [|a l IH]; intros H j Hj; [destruct Hj|].
  inversion H as [|? ? Hs Hall]; subst.
  destruct l as [|b l].
  - destruct Hj as [<- | []]. simpl. lia.
  - change (last (a :: b :: l) d) with (last (b :: l) d).
    destruct Hj as [<- | Hj].
    + rewrite Forall_forall in Hall.
      assert (Hb : (a < b)%nat) by (apply Hall; left; reflexivity).
      specialize (IH Hs b (or_introl eq_refl)). lia.
    + apply IH; assumption.
Qed.

Lemma last_cons_In (l : list nat) :
  forall a d, In (last (a :: l) d) (a :: l).
Proof.
  induction l as [|b l IH]; intros a d; [left; reflexivity|].
  right. change (last (a :: b :: l) d) with (last (b :: l) d). apply IH.
Qed.

Lemma is_match_forallb_seq (s : list float) (x : float) (a n k : nat) :
  forallb (fun k => negb (is_match s x k)) (seq a n) = true ->
  (a <= k < a + n)%nat -> is_match s x k = false.
Proof.
  intros H Hk. rewrite forallb_forall in H.
  specialize (H k). rewrite in_seq in H. specialize (H Hk).
  destruct (is_match s x k); [discriminate | reflexivity].
Qed.

Lemma is_match_lt_length (s : list float) (x : float) (j : nat) :
  is_match s x j = true -> (j < List.length s)%nat.
Proof.
  unfold is_match. destruct (nth_error s j) eqn:E; [|discriminate].
  intros _. apply nth_error_Some. congruence.
Qed.

(** The index that [rank_of] picks is the position the specification
    describes. *)
Lemma rank_of_position (s : list float) (n : nat) (use_first : bool)
    (x : float) (j : nat) :
  tie_break_match use_first s x j = true ->
  rank_of s n use_first x = F64.div (F64.of_nat j) (F64.of_nat (n - 1)).
Proof.
  intros Hpos. unfold rank_of, np_where_eq.
  assert (Hsorted := np_where_eq_from_sorted s x 0).
  assert (Hin := np_where_eq_from_In s x 0).
  assert (Hj : is_match s x j = true).
  { destruct use_first; simpl in Hpos; apply andb_prop in Hpos; tauto. }
  assert (Hjin : In j (np_where_eq_from 0 s x)).
  { apply Hin. rewrite Nat.sub_0_r. split; [lia | exact Hj]. }
  destruct (np_where_eq_from 0 s x) as [|i0 t] eqn:E; [destruct Hjin|].
  do 2 f_equal.
  destruct use_first; simpl in Hpos; apply andb_prop in Hpos;
    destruct Hpos as [_ Hall].
  - assert (Hle : (i0 <= j)%nat) by (apply (sorted_head_least i0 t); assumption).
    assert (Hm : is_match s x i0 = true).
    { specialize (Hin i0). rewrite Nat.sub_0_r in Hin.
      apply Hin. left; reflexivity. }
    destruct (Nat.eq_dec i0 j) as [|Hne]; [assumption|].
    rewrite (is_match_forallb_seq s x 0 j i0 Hall) in Hm; [discriminate | lia].
  - assert (Hle : (j <= last (i0 :: t) i0)%nat)
      by (apply sorted_last_greatest; assumption).
    assert (Hm : is_match s x (last (i0 :: t) i0) = true).
    { specialize (Hin (last (i0 :: t) i0)). rewrite Nat.sub_0_r in Hin.
      apply Hin. apply last_cons_In. }
    destruct (Nat.eq_dec (last (i0 :: t) i0) j) as [|Hne]; [assumption|].
    assert (Hlt := is_match_lt_length _ _ _ Hm).
    rewrite (is_match_forallb_seq s x _ _ _ Hall) in Hm; [discriminate | lia].
Qed.

(** ** The sort keeps the length *)

Lemma np_insert_length (x : float) (s : list float) :
  List.length (np_insert x s) = S (List.length s).
Proof.
  induction s as [|y s IH]; simpl; [reflexivity|].
  destruct (np_lt y x); simpl; [rewrite IH|]; reflexivity.
Qed.

Lemma np_sort_length (l : list float) :
  List.length (np_sort l) = List.length l.
Proof.
  induction l as [|x l IH]; simpl; [reflexivity|].
  rewrite np_insert_length, IH. reflexivity.
Qed.

Lemma percentrank_inc_length (values : list float) (use_first : bool) :
  List.length (percentrank_inc values use_first) = List.length values.
Proof.
  unfold percentrank_inc.
  destruct (List.length (np_sort values) <=? 1)%nat; apply length_map.
Qed.

Lemma percentrank_inc_nth_error (values : list float) (use_first : bool)
    (i : nat) (x : float) :
  (2 <= List.length values)%nat ->
  nth_error values i = Some x ->
  nth_error (percentrank_inc values use_first) i =
  Some (rank_of (np_sort values) (List.length values) use_first x).
Proof.
  intros Hn Hx. unfold percentrank_inc. rewrite np_sort_length.
  destruct (Nat.leb_spec (List.length values) 1) as [Hle|_]; [lia|].
  rewrite nth_error_map, Hx. reflexivity.
Qed.

(** ** Float comparison *)

Lemma eqb_nan_r (y : float) : F64.eqb y F64.nan = false.
Proof. destruct y; reflexivity. Qed.

Lemma eqb_refl (x : float) : F64.is_nan x = false -> F64.eqb x x = true.
Proof.
  destruct x as [s|s| |s m e]; simpl; intros H; try reflexivity;
    try discriminate.
  - destruct s; reflexivity.
  - unfold F64.eqb, SFeqb, SFcompare.
    rewrite Z.compare_refl.
    change (Pos.compare_cont Eq m m) with (Pos.compare m m).
    rewrite Pos.compare_refl. destruct s; reflexivity.
Qed.

Lemma np_where_eq_nan (s : list float) (k : nat) :
  np_where_eq_from k s F64.nan = [].
Proof.
  revert k. induction s as [|y s IH]; intros k; simpl; [reflexivity|].
  rewrite eqb_nan_r. apply IH.
Qed.

Lemma rank_of_nan (s : list float) (n : nat) (use_first : bool) :
  rank_of s n use_first F64.nan = F64.half.
Proof. unfold rank_of, np_where_eq. rewrite np_where_eq_nan. reflexivity. Qed.

(** ** What a successful run hands to [to_csv] *)

Lemma transform_frame_Ok (df : DataFrame) (out : OutFrame) :
  transform_frame df = Ok out ->
  exists salary large ceiling proj,
    DK_Salary df = Some salary /\ Large_Field df = Some large /\
    DK_Ceiling df = Some ceiling /\ DK_Proj df = Some proj /\
    out_DK_Salary out = DK_Salary_out (salary_num salary) /\
    out_OWN_FRAC out = OWN_FRAC (large_field_pct large) /\
    out_LEVERAGE_SCORE out = LEVERAGE_SCORE ceiling (large_field_pct large) /\
    out_VALUE_PER_1k out =
      VALUE_PER_1k (VALUE_PER_1k_raw proj (salary_num salary)) /\
    out_CEILING_PCT_RANK out = CEILING_PCT_RANK_out (CEILING_PCT_RANK ceiling) /\
    OWNERSHIP_PCT_RANK_out (OWNERSHIP_PCT_RANK (large_field_pct large)) =
      Ok (out_OWNERSHIP_PCT_RANK out) /\
    out_leverage_delta out =
      leverage_delta_out (leverage_delta_raw ceiling (large_field_pct large)).
Proof.
  unfold transform_frame, getitem, bind.
  destruct (DK_Salary df) as [salary|]; [|discriminate].
  destruct (Large_Field df) as [large|]; [|discriminate].
  destruct (DK_Ceiling df) as [ceiling|]; [|discriminate].
  destruct (DK_Proj df) as [proj|]; [|discriminate].
  destruct (OWNERSHIP_PCT_RANK_out _) as [orank|] eqn:Eo; [|discriminate].
  destruct (Player df), (DK_Pos df), (Team df), (Opp df), (DK_Value df),
    (DK_Floor df), (id_ df); try discriminate.
  intros H. injection H as <-. simpl.
  exists salary, large, ceiling, proj.
  repeat split; try reflexivity. exact Eo.
Qed.

(** ** The order of the sort *)

Lemma ltb_key (x y : float) :
  F64.ltb x y = true <-> key_lt x y /\ F64.is_nan y = false.
Proof.
  unfold key_lt, F64.ltb, SFltb.
  destruct x as [sx|sx| |sx mx ex], y as [sy|sy| |sy my ey];
    try destruct sx; try destruct sy; simpl;
    try (intuition (try discriminate; try lia); fail).
  - change (Pos.compare_cont Eq mx my) with (Pos.compare mx my).
    destruct (Z.compare_spec ex ey), (Pos.compare_spec mx my); simpl;
      intuition (try discriminate; try lia).
  - change (Pos.compare_cont Eq mx my) with (Pos.compare mx my).
    destruct (Z.compare_spec ex ey), (Pos.compare_spec mx my); simpl;
      intuition (try discriminate; try lia).
Qed.

Lemma eqb_key (x y : float) :
  F64.eqb x y = true <-> key_eq x y /\ F64.is_nan x = false.
Proof.
  unfold key_eq, F64.eqb, SFeqb.
  destruct x as [sx|sx| |sx mx ex], y as [sy|sy| |sy my ey];
    try destruct sx; try destruct sy; simpl;
    try (intuition (try discriminate; try lia); fail).
  - change (Pos.compare_cont Eq mx my) with (Pos.compare mx my).
    destruct (Z.compare_spec ex ey), (Pos.compare_spec mx my); simpl;
      intuition (try discriminate; try lia).
  - change (Pos.compare_cont Eq mx my) with (Pos.compare mx my).
    destruct (Z.compare_spec ex ey), (Pos.compare_spec mx my); simpl;
      intuition (try discriminate; try lia).
Qed.

Lemma is_nan_key (x : float) : F64.is_nan x = true <-> k1 x = 5.
Proof.
  destruct x as [s|s| |s m e]; try destruct s; simpl;
    intuition (try discriminate; try lia).
Qed.

Lemma k1_range (x : float) : 0 <= k1 x <= 5.
Proof. destruct x as [s|s| |s m e]; try destruct s; simpl; lia. Qed.

Lemma np_lt_key (x y : float) : np_lt x y = true <-> key_lt x y.
Proof.
  unfold np_lt. rewrite orb_true_iff, andb_true_iff, negb_true_iff, ltb_key.
  assert (Hx := k1_range x). assert (Hy := k1_range y).
  assert (Hnx := is_nan_key x). assert (Hny := is_nan_key y).
  unfold key_lt.
  destruct (F64.is_nan x), (F64.is_nan y).
  - assert (k1 x = 5) by tauto. assert (k1 y = 5) by tauto.
    destruct x, y; simpl in *; try discriminate;
      try (destruct s; simpl in *; discriminate);
      intuition (try discriminate; try lia).
  - assert (k1 x = 5) by tauto. intuition (try discriminate; try lia).
  - assert (k1 y = 5) by tauto.
    assert (k1 x <> 5) by (intros E; apply Hnx in E; discriminate).
    split; [intros _|]; [left; lia | intros _; right; split; reflexivity].
  - intuition discriminate.
Qed.

Lemma np_le_key (x y : float) : np_le x y <-> ~ key_lt y x.
Proof.
  unfold np_le. rewrite <- np_lt_key.
  destruct (np_lt y x); intuition discriminate.
Qed.

(** ** The sort: a sorted rearrangement *)

Lemma np_insert_perm (x : float) (s : list float) :
  Permutation (np_insert x s) (x :: s).
Proof.
  induction s as [|y s IH]; simpl; [reflexivity|].
  destruct (np_lt y x); [|reflexivity].
  rewrite IH. apply perm_swap.
Qed.

Lemma np_sort_perm (l : list float) : Permutation (np_sort l) l.
Proof.
  induction l as [|x l IH]; simpl; [reflexivity|].
  rewrite np_insert_perm. constructor. exact IH.
Qed.

Lemma np_insert_sorted (x : float) (s : list float) :
  StronglySorted np_le s -> StronglySorted np_le (np_insert x s).
Proof.
  induction s as [|y s IH]; intros Hs; simpl.
  - constructor; constructor.
  - inversion Hs as [|? ? Hs' Hall]; subst.
    destruct (np_lt y x) eqn:E.
    + constructor; [apply IH; exact Hs'|].
      apply (Permutation_Forall (Permutation_sym (np_insert_perm x s))).
      constructor; [|exact Hall].
      apply np_le_key. apply np_lt_key in E. unfold key_lt in *. lia.
    + constructor; [exact Hs|].
      constructor; [exact E|].
      rewrite Forall_forall in *. intros z Hz. specialize (Hall z Hz).
      apply np_le_key in Hall. apply np_le_key.
      assert (E' : ~ key_lt y x) by (rewrite <- np_lt_key, E; discriminate).
      unfold key_lt in *. lia.
Qed.

Lemma np_sort_sorted (l : list float) : StronglySorted np_le (np_sort l).
Proof.
  induction l as [|x l IH]; simpl; [constructor|].
  apply np_insert_sorted. exact IH.
Qed.

(** ** Counting instead of searching *)

Lemma count_lt_perm (x : float) (l l' : list float) :
  Permutation l l' -> count_lt x l = count_lt x l'.
Proof.
  unfold count_lt. induction 1 as [|y l l' _ IH|y z l|l l' l'' _ IH1 _ IH2];
    simpl; try reflexivity.
  - destruct (F64.ltb y x); simpl; congruence.
  - destruct (F64.ltb y x), (F64.ltb z x); reflexivity.
  - congruence.
Qed.

Lemma count_eq_perm (x : float) (l l' : list float) :
  Permutation l l' -> count_eq x l = count_eq x l'.
Proof.
  unfold count_eq. induction 1 as [|y l l' _ IH|y z l|l l' l'' _ IH1 _ IH2];
    simpl; try reflexivity.
  - destruct (F64.eqb y x); simpl; congruence.
  - destruct (F64.eqb y x), (F64.eqb z x); reflexivity.
  - congruence.
Qed.

Lemma count_zero_above (x y : float) (s : list float) :
  key_lt x y -> Forall (np_le y) s ->
  count_lt x s = 0%nat /\ count_eq x s = 0%nat.
Proof.
  intros Hxy Hall. unfold count_lt, count_eq.
  induction Hall as [|z s Hz _ IH]; simpl; [split; reflexivity|].
  apply np_le_key in Hz.
  destruct (F64.ltb z x) eqn:E1.
  { apply ltb_key in E1. unfold key_lt in *. lia. }
  destruct (F64.eqb z x) eqn:E2.
  { apply eqb_key in E2. unfold key_lt, key_eq in *. lia. }
  exact IH.
Qed.

Lemma count_lt_zero_from (x y : float) (s : list float) :
  key_eq y x -> Forall (np_le y) s -> count_lt x s = 0%nat.
Proof.
  intros Hxy Hall. unfold count_lt.
  induction Hall as [|z s Hz _ IH]; simpl; [reflexivity|].
  apply np_le_key in Hz.
  destruct (F64.ltb z x) eqn:E1.
  { apply ltb_key in E1. unfold key_lt, key_eq in *. lia. }
  exact IH.
Qed.

(** In a sorted sequence the indices equal to [x] are one run: it starts
    after the elements below [x] and is as long as the elements equal to
    [x] are many. *)
Lemma np_where_eq_sorted (s : list float) (x : float) :
  StronglySorted np_le s -> F64.is_nan x = false ->
  forall k, np_where_eq_from k s x = seq (k + count_lt x s) (count_eq x s).
Proof.
  intros Hs Hx. induction Hs as [|y s Hs IH Hall]; intros k; simpl.
  - reflexivity.
  - unfold count_lt, count_eq in *. simpl.
    destruct (F64.eqb y x) eqn:Eeq.
    + assert (Hlt : F64.ltb y x = false).
      { destruct (F64.ltb y x) eqn:E; [|reflexivity].
        apply ltb_key in E. apply eqb_key in Eeq.
        unfold key_lt, key_eq in *. lia. }
      rewrite Hlt. simpl. rewrite IH.
      apply eqb_key in Eeq. destruct Eeq as [Eeq _].
      assert (H0 := count_lt_zero_from x y s Eeq Hall).
      unfold count_lt in H0. rewrite H0.
      replace (k + 0)%nat with k by lia.
      replace (S k + 0)%nat with (S k) by lia. reflexivity.
    + destruct (F64.ltb y x) eqn:Elt; simpl.
      * rewrite IH. f_equal. lia.
      * assert (Hxy : key_lt x y).
        { assert (E1 : ~ (key_lt y x /\ F64.is_nan x = false))
            by (rewrite <- ltb_key, Elt; discriminate).
          assert (E2 : ~ (key_eq y x /\ F64.is_nan y = false))
            by (rewrite <- eqb_key, Eeq; discriminate).
          assert (Hnx : k1 x <> 5)
            by (intros E; apply is_nan_key in E; congruence).
          assert (Hny := is_nan_key y). assert (Hry := k1_range y).
          destruct (F64.is_nan y).
          - assert (k1 y = 5) by tauto. assert (Hrx := k1_range x).
            unfold key_lt. lia.
          - assert (E1' : ~ key_lt y x) by tauto.
            assert (E2' : ~ key_eq y x) by tauto.
            clear E1 E2. unfold key_lt, key_eq in *. lia. }
        destruct (count_zero_above x y s Hxy Hall) as [H1 H2].
        unfold count_lt, count_eq in H1, H2.
        rewrite IH, H1, H2. reflexivity.
Qed.

Lemma last_seq (a c d : nat) : last (seq a (S c)) d = (a + c)%nat.
Proof.
  revert a. induction c as [|c IH]; intros a; [simpl; lia|].
  change (seq a (S (S c))) with (a :: seq (S a) (S c)).
  change (last (a :: seq (S a) (S c)) d) with (last (seq (S a) (S c)) d).
  rewrite IH. lia.
Qed.

Lemma count_eq_nan (l : list float) : count_eq F64.nan l = 0%nat.
Proof.
  unfold count_eq. induction l as [|y l IH]; simpl; [reflexivity|].
  rewrite eqb_nan_r. exact IH.
Qed.

(** The rank that [rank_of] reads off any sorted rearrangement of [l] is
    the rank given by the counts in [l]. *)
Lemma rank_of_by_count (l s : list float) (use_first : bool) (x : float) :
  StronglySorted np_le s -> Permutation s l ->
  rank_of s (List.length l) use_first x = rank_by_count l use_first x.
Proof.
  intros Hs Hp. unfold rank_by_count.
  rewrite <- (count_eq_perm x s l Hp), <- (count_lt_perm x s l Hp).
  destruct (F64.is_nan x) eqn:Hx.
  - destruct x; try discriminate.
    rewrite rank_of_nan, count_eq_nan. reflexivity.
  - unfold rank_of, np_where_eq. rewrite (np_where_eq_sorted s x Hs Hx).
    destruct (count_eq x s) as [|c]; [reflexivity|].
    simpl seq at 1. cbv iota.
    change (0 + count_lt x s :: seq (S (0 + count_lt x s)) c)%nat
      with (seq (0 + count_lt x s) (S c)).
    rewrite last_seq. destruct use_first; reflexivity.
Qed.

Lemma percentrank_inc_by_count (values : list float) (use_first : bool) :
  percentrank_inc values use_first =
  if (List.length values <=? 1)%nat then map (fun _ => F64.zero) values
  else map (rank_by_count values use_first) values.
Proof.
  unfold percentrank_inc. rewrite np_sort_length.
  destruct (List.length values <=? 1)%nat; [reflexivity|].
  apply map_ext. intros x.
  apply rank_of_by_count; [apply np_sort_sorted | apply np_sort_perm].
Qed.

(** ** The index picked under each tie-break is a position *)

Lemma np_where_eq_ends (s : list float) (x : float) (i0 : nat) (t : list nat) :
  np_where_eq_from 0 s x = i0 :: t ->
  first_match s x i0 = true /\ last_match s x (last (i0 :: t) i0) = true.
Proof.
  intros E.
  assert (Hsorted := np_where_eq_from_sorted s x 0).
  assert (Hin : forall j, In j (i0 :: t) <-> is_match s x j = true).
  { intros j. rewrite <- E, np_where_eq_from_In, Nat.sub_0_r.
    split; [tauto | split; [lia | assumption]]. }
  rewrite E in Hsorted.
  unfold first_match, last_match. split; apply andb_true_intro; split.
  - apply Hin. left; reflexivity.
  - apply forallb_forall. intros k Hk. apply in_seq in Hk.
    destruct (is_match s x k) eqn:Ek; [|reflexivity].
    apply Hin in Ek. apply (sorted_head_least i0 t Hsorted) in Ek. lia.
  - apply Hin. apply last_cons_In.
  - apply forallb_forall. intros k Hk. apply in_seq in Hk.
    destruct (is_match s x k) eqn:Ek; [|reflexivity].
    apply Hin in Ek. apply (sorted_last_greatest _ i0 Hsorted) in Ek. lia.
Qed.

Lemma tie_break_match_exists (s : list float) (use_first : bool) (x : float) :
  In x s -> F64.is_nan x = false ->
  exists j, tie_break_match use_first s x j = true.
Proof.
  intros Hin Hx.
  destruct (In_nth_error s x Hin) as [j0 Hj0].
  assert (Hm : In j0 (np_where_eq_from 0 s x)).
  { apply np_where_eq_from_In. split; [lia|].
    rewrite Nat.sub_0_r. unfold is_match. rewrite Hj0.
    apply eqb_refl. exact Hx. }
  destruct (np_where_eq_from 0 s x) as [|i0 t] eqn:E; [destruct Hm|].
  destruct (np_where_eq_ends s x i0 t E) as [Hf Hl].
  destruct use_first; simpl; eauto.
Qed.

(** ** Claims about the percentile ranker *)

Example percentrank_5_5_last :
  percentrank_inc [F64.of_Z 5; F64.of_Z 5] false = [F64.one; F64.one].
Proof. vm_compute. reflexivity. Qed.

Example percentrank_5_5_first :
  percentrank_inc [F64.of_Z 5; F64.of_Z 5] true = [F64.zero; F64.zero].
Proof. vm_compute. reflexivity. Qed.

(** C8. A sequence of at most one element is ranked 0.0 throughout, under
    both tie-breaks. *)
Theorem percentrank_inc_short (values : list float) (use_first : bool) :
  (List.length values <= 1)%nat ->
  percentrank_inc values use_first = repeat F64.zero (List.length values).
Proof.
  intros Hn. unfold percentrank_inc. rewrite np_sort_length.
  destruct (Nat.leb_spec (List.length values) 1) as [_|Hgt]; [|lia].
  clear Hn. induction values as [|x l IH]; simpl; [reflexivity|].
  rewrite IH. reflexivity.
Qed.

Lemma percentrank_inc_short_witness :
  (List.length [F64.of_Z 7] <= 1)%nat /\
  percentrank_inc [F64.of_Z 7] false = [F64.zero].
Proof.
  split; [simpl; lia|].
  apply (percentrank_inc_short [F64.of_Z 7] false (le_n 1)).
Defined.

Lemma nth_error_map2 {A B C : Type} (f : A -> B -> C) (l : list A)
    (l' : list B) (i : nat) (a : A) (b : B) :
  nth_error l i = Some a -> nth_error l' i = Some b ->
  nth_error (map2 f l l') i = Some (f a b).
Proof.
  revert l' i. induction l as [|a0 l IH]; intros l' i Ha Hb.
  - destruct i; discriminate.
  - destruct l' as [|b0 l']; [destruct i; discriminate|].
    destruct i as [|i]; simpl in *.
    + congruence.
    + apply IH; assumption.
Qed.

(** C10. In a sequence of at least two values a NaN equals no element of
    the sorted sequence, so it is ranked 0.5; through the pipeline, a row
    whose ceiling is missing is written with the ceiling rank 50.00%. *)
Theorem percentrank_inc_nan_fallback
    (values : list float) (use_first : bool) (i : nat) :
  (2 <= List.length values)%nat ->
  nth_error values i = Some F64.nan ->
  (forall j, is_match (np_sort values) F64.nan j = false) /\
  nth_error (percentrank_inc values use_first) i = Some F64.half /\
  (forall df out,
     DK_Ceiling df = Some values -> transform_frame df = Ok out ->
     nth_error (out_CEILING_PCT_RANK out) i = Some "50.00%"%string).
Proof.
  intros Hn Hx. split; [|split].
  - intros j. unfold is_match.
    destruct (nth_error (np_sort values) j); [apply eqb_nan_r | reflexivity].
  - rewrite (percentrank_inc_nth_error values use_first i _ Hn Hx).
    rewrite rank_of_nan. reflexivity.
  - intros df out Hc Hout.
    destruct (transform_frame_Ok df out Hout)
      as (salary & large & ceiling & proj & _ & _ & Hc' & _ & _ & _ & _ & _
          & Hr & _).
    assert (ceiling = values) by congruence. subst ceiling.
    rewrite Hr. unfold CEILING_PCT_RANK_out, CEILING_PCT_RANK.
    rewrite !nth_error_map.
    rewrite (percentrank_inc_nth_error values false i _ Hn Hx).
    rewrite rank_of_nan. reflexivity.
Qed.

(** ** Rearranging the input *)

Lemma permute_seq {A : Type} (d : A) (l : list A) :
  permute d (seq 0 (List.length l)) l = l.
Proof.
  unfold permute. induction l as [|a l IH]; simpl; [reflexivity|].
  f_equal. rewrite <- seq_shift, map_map. exact IH.
Qed.

Lemma permute_perm {A : Type} (d : A) (p : list nat) (l : list A) :
  Permutation p (seq 0 (List.length l)) -> Permutation (permute d p l) l.
Proof.
  intros Hp. rewrite <- (permute_seq d l) at 2.
  unfold permute. apply Permutation_map. exact Hp.
Qed.

Lemma rank_by_count_perm (l l' : list float) (use_first : bool) (x : float) :
  Permutation l l' -> rank_by_count l use_first x = rank_by_count l' use_first x.
Proof.
  intros Hp. unfold rank_by_count.
  rewrite (count_eq_perm x l l' Hp), (count_lt_perm x l l' Hp),
    (Permutation_length Hp).
  reflexivity.
Qed.

Lemma nth_map_zero {A : Type} (l : list A) (j : nat) :
  nth j (map (fun _ => F64.zero) l) F64.zero = F64.zero.
Proof.
  revert j. induction l as [|a l IH]; intros [|j]; simpl; try reflexivity.
  apply IH.
Qed.

(** C5. Ranking a rearranged sequence gives the rearranged ranks: the value
    taken from index [p(i)] receives, at index [i], the rank it has in the
    original sequence. *)
Theorem percentrank_inc_permutation_equivariant
    (values : list float) (use_first : bool) (p : list nat) :
  Permutation p (seq 0 (List.length values)) ->
  percentrank_inc (permute F64.zero p values) use_first =
  permute F64.zero p (percentrank_inc values use_first).
Proof.
  intros Hp.
  assert (Hperm := permute_perm F64.zero p values Hp).
  rewrite !percentrank_inc_by_count.
  rewrite (Permutation_length Hperm).
  unfold permute at 2 4.
  destruct (List.length values <=? 1)%nat.
  - unfold permute. rewrite map_map. apply map_ext. intros j.
    symmetry. apply nth_map_zero.
  - unfold permute. rewrite map_map. apply map_ext_in. intros j Hj.
    assert (Hlt : (j < List.length values)%nat).
    { apply (Permutation_in j Hp) in Hj. apply in_seq in Hj. lia. }
    rewrite (nth_indep (map (rank_by_count values use_first) values)
               F64.zero (rank_by_count values use_first F64.zero))
      by (rewrite length_map; exact Hlt).
    rewrite map_nth.
    symmetry. apply rank_by_count_perm.
    apply Permutation_sym. exact Hperm.
Qed.

Lemma percentrank_inc_permutation_equivariant_witness :
  Permutation [2; 0; 1]%nat
    (seq 0 (List.length [F64.of_Z 7; F64.of_Z 3; F64.of_Z 7])) /\
  percentrank_inc
    (permute F64.zero [2; 0; 1]%nat [F64.of_Z 7; F64.of_Z 3; F64.of_Z 7])
    false =
  permute F64.zero [2; 0; 1]%nat
    (percentrank_inc [F64.of_Z 7; F64.of_Z 3; F64.of_Z 7] false).
Proof.
  assert (Hp : Permutation [2; 0; 1]%nat
            (seq 0 (List.length [F64.of_Z 7; F64.of_Z 3; F64.of_Z 7]))).
  { simpl. apply perm_trans with [0; 2; 1]%nat.
    - apply perm_swap.
    - apply perm_skip. apply perm_swap. }
  split; [exact Hp|].
  apply (percentrank_inc_permutation_equivariant
           [F64.of_Z 7; F64.of_Z 3; F64.of_Z 7] false [2; 0; 1]%nat Hp).
Defined.

Lemma percentrank_inc_nan_fallback_witness :
  (2 <= List.length [F64.of_Z 10; F64.nan])%nat /\
  nth_error [F64.of_Z 10; F64.nan] 1 = Some F64.nan /\
  nth_error (percentrank_inc [F64.of_Z 10; F64.nan] true) 1 = Some F64.half /\
  exists out,
    transform_frame sample_missing_ceiling = Ok out /\
    nth_error (out_CEILING_PCT_RANK out) 1 = Some "50.00%"%string.
Proof.
  destruct (percentrank_inc_nan_fallback [F64.of_Z 10; F64.nan] true 1
              (le_n 2) eq_refl) as (_ & Hrank & Hpipe).
  split; [simpl; lia|]. split; [reflexivity|]. split; [exact Hrank|].
  destruct (transform_frame sample_missing_ceiling) as [out|e] eqn:E.
  - exists out. split; [reflexivity|].
    apply (Hpipe sample_missing_ceiling out eq_refl E).
  - vm_compute in E. discriminate E.
Defined.

(** ** Claims about the metrics *)

(** The integer that [div_half_even] picks is a nearest one, and the even
    one of the two when [num / den] lies half way. *)
Lemma div_half_even_nearest (num den : Z) :
  0 <= num -> 0 < den ->
  2 * Z.abs (num - div_half_even num den * den) <= den /\
  (2 * Z.abs (num - div_half_even num den * den) = den ->
   Z.even (div_half_even num den) = true).
Proof.
  intros Hn Hd. unfold div_half_even.
  assert (Hdm := Z.div_mod num den ltac:(lia)).
  assert (Hr := Z.mod_pos_bound num den Hd).
  set (q := num / den) in *. set (r := num mod den) in *.
  destruct (Z.ltb_spec den (2 * r)) as [Hlt|Hge]; cbn [orb].
  - replace (num - (q + 1) * den) with (r - den) by lia. split; lia.
  - destruct (Z.eqb_spec (2 * r) den) as [Heq|Hne]; cbn [andb].
    + destruct (Z.odd q) eqn:Hodd.
      * replace (num - (q + 1) * den) with (r - den) by lia.
        split; [lia|]. intros _.
        rewrite Z.add_1_r, Z.even_succ. exact Hodd.
      * replace (num - q * den) with r by lia.
        split; [lia|]. intros _.
        rewrite <- Z.negb_odd, Hodd. reflexivity.
    + replace (num - q * den) with r by lia. split; lia.
Qed.

(** C4. The leverage delta of a row is the ceiling percent rank already
    rounded to 2 decimals minus the ownership percent rank already rounded
    to 0 decimals: the one is [rint] of the rank times 100 times 100,
    divided by 100, the other [rint] of the rank times 100, where [rint]
    of a float takes a nearest integer, the even one at a tie, and leaves
    an integral float as it is.  On four distinct values the second row
    has rank 1/3 in both columns and the delta 33.33 - 33, shown as 0.3%,
    where the unrounded ranks would give 0. *)
Theorem leverage_delta_from_rounded :
  (forall (ceiling pct : list float) (i : nat) (rc ro : float),
     nth_error (percentrank_inc ceiling false) i = Some rc ->
     nth_error (percentrank_inc pct true) i = Some ro ->
     nth_error (leverage_delta_raw ceiling pct) i =
     Some (F64.sub
             (F64.div (rint (F64.mul (F64.mul rc F64.hundred) F64.hundred))
                      F64.hundred)
             (rint (F64.mul ro F64.hundred)))) /\
  (forall (s : bool) (m : positive) (e : Z), e < 0 ->
     exists q,
       rint (S754_finite s m e) =
         (if q =? 0 then S754_zero s else F64.of_Z (cond_Zopp s q)) /\
       2 * Z.abs (Zpos m - q * 2 ^ (- e)) <= 2 ^ (- e) /\
       (2 * Z.abs (Zpos m - q * 2 ^ (- e)) = 2 ^ (- e) -> Z.even q = true)) /\
  (forall x,
     match x with S754_finite _ _ e => 0 <=? e | _ => true end = true ->
     rint x = x) /\
  nth_error (leverage_delta_raw four_values four_values) 1 =
    Some (F64.sub (F64.div (F64.of_Z 3333) F64.hundred) (F64.of_Z 33)) /\
  F64.eqb (F64.sub (F64.div (F64.of_Z 3333) F64.hundred) (F64.of_Z 33))
          (F64.sub (F64.mul third F64.hundred) (F64.mul third F64.hundred))
    = false /\
  leverage_delta_out (leverage_delta_raw four_values four_values) =
    ["0.0%"; "0.3%"; "-0.3%"; "0.0%"]%string.
Proof.
  split; [|split; [|split]].
  - intros ceiling pct i rc ro Hc Ho.
    unfold leverage_delta_raw, CEILING_PCT_RANK, OWNERSHIP_PCT_RANK.
    apply nth_error_map2; rewrite nth_error_map.
    + rewrite Hc. reflexivity.
    + rewrite Ho. reflexivity.
  - intros s m e He. exists (div_half_even (Zpos m) (2 ^ (- e))).
    assert (Hp : 0 < 2 ^ (- e)) by (apply Z.pow_pos_nonneg; lia).
    split.
    + unfold rint. destruct (Z.leb_spec 0 e) as [Hle|_]; [lia|]. reflexivity.
    + apply div_half_even_nearest; lia.
  - intros [s|s| |s m e] H; try reflexivity.
    unfold rint. rewrite H. reflexivity.
  - vm_compute. repeat split.
Qed.

Lemma leverage_delta_from_rounded_witness :
  nth_error (percentrank_inc four_values false) 1 = Some third /\
  nth_error (percentrank_inc four_values true) 1 = Some third /\
  nth_error (leverage_delta_raw four_values four_values) 1 =
  Some (F64.sub
          (F64.div (rint (F64.mul (F64.mul third F64.hundred) F64.hundred))
                   F64.hundred)
          (rint (F64.mul third F64.hundred))) /\
  (exists q,
     rint (S754_finite false 5 (-1)) =
       (if q =? 0 then S754_zero false else F64.of_Z (cond_Zopp false q)) /\
     2 * Z.abs (5 - q * 2 ^ 1) <= 2 ^ 1 /\
     (2 * Z.abs (5 - q * 2 ^ 1) = 2 ^ 1 -> Z.even q = true)) /\
  rint (S754_finite false 5 (-1)) = F64.of_Z 2.
Proof.
  destruct leverage_delta_from_rounded as (Hdelta & Hrint & _).
  split; [reflexivity|]. split; [reflexivity|].
  split; [apply (Hdelta four_values four_values 1%nat third third);
          reflexivity|].
  split; [apply (Hrint false 5%positive (-1)); reflexivity|].
  reflexivity.
Defined.

(** On four distinct values the second row has rank 1/3 in both columns:
    the delta is 33.33 - 33.0, not the zero that the unrounded ranks give. *)
Example leverage_delta_not_from_unrounded :
  nth_error (leverage_delta_raw four_values four_values) 1 =
    Some (F64.sub (F64.div (F64.of_Z 3333) F64.hundred) (F64.of_Z 33)) /\
  F64.sub (F64.mul third F64.hundred) (F64.mul third F64.hundred) = F64.zero /\
  leverage_delta_out (leverage_delta_raw four_values four_values) =
    ["0.0%"; "0.3%"; "-0.3%"; "0.0%"]%string.
Proof. vm_compute. repeat split. Qed.

Lemma div_zero_thousand (b : bool) :
  F64.div (S754_zero b) F64.thousand = S754_zero b.
Proof. destruct b; reflexivity. Qed.

(** C3, as the code has it. The value per 1000 of a row is
    [projection / (salary / 1000)]. With a missing salary it is NaN and
    shown as the empty string. With a zero salary it is NaN, shown empty,
    only when the projection is zero or missing; for any other projection
    it is an infinity, shown as [$inf] or [$-inf]. *)
Theorem value_per_1k_formula
    (proj salary : list float) (i : nat) (p s : float) :
  nth_error proj i = Some p ->
  nth_error salary i = Some s ->
  let v := F64.div p (F64.div s F64.thousand) in
  let shown := nth_error (VALUE_PER_1k (VALUE_PER_1k_raw proj salary)) i in
  nth_error (VALUE_PER_1k_raw proj salary) i = Some v /\
  (F64.is_nan s = true -> v = F64.nan /\ shown = Some ""%string) /\
  (F64.is_zero s = true -> F64.is_zero p || F64.is_nan p = true ->
     v = F64.nan /\ shown = Some ""%string) /\
  (F64.is_zero s = true -> F64.is_zero p || F64.is_nan p = false ->
     v = S754_infinity (xorb (sign_bit p) (sign_bit s)) /\
     shown = Some (if xorb (sign_bit p) (sign_bit s)
                   then "$-inf" else "$inf")%string).
Proof.
  intros Hp Hs v shown.
  assert (Hraw : nth_error (VALUE_PER_1k_raw proj salary) i = Some v).
  { unfold VALUE_PER_1k_raw. apply nth_error_map2; [exact Hp|].
    rewrite nth_error_map, Hs. reflexivity. }
  assert (Hshown : shown =
            Some (if notna v then String "$" (format_f false 2 v)
                  else EmptyString)).
  { unfold shown, VALUE_PER_1k. rewrite nth_error_map, Hraw. reflexivity. }
  split; [exact Hraw|]. rewrite Hshown. clear Hraw Hshown shown Hp Hs.
  split; [|split].
  - intros Hn. destruct s; try discriminate.
    assert (E : v = F64.nan) by (unfold v; destruct p; reflexivity).
    rewrite E. split; reflexivity.
  - intros Hz Hpz. destruct s as [b| | |]; try discriminate.
    assert (E : v = F64.nan).
    { unfold v. rewrite div_zero_thousand.
      destruct p; try discriminate; reflexivity. }
    rewrite E. split; reflexivity.
  - intros Hz Hpz. destruct s as [b| | |]; try discriminate.
    assert (E : v = S754_infinity (xorb (sign_bit p) b)).
    { unfold v. rewrite div_zero_thousand.
      destruct p; try discriminate; reflexivity. }
    simpl sign_bit at 2 4. rewrite E. split; [reflexivity|].
    destruct (xorb (sign_bit p) b); reflexivity.
Qed.

Lemma value_per_1k_formula_witness :
  nth_error [F64.of_Z 14] 0 = Some (F64.of_Z 14) /\
  nth_error (salary_num [PyStr "abc"]) 0 = Some F64.nan /\
  nth_error (VALUE_PER_1k_raw [F64.of_Z 14] (salary_num [PyStr "abc"])) 0 =
    Some F64.nan /\
  nth_error
    (VALUE_PER_1k (VALUE_PER_1k_raw [F64.of_Z 14] (salary_num [PyStr "abc"])))
    0 = Some ""%string.
Proof.
  destruct (value_per_1k_formula [F64.of_Z 14] (salary_num [PyStr "abc"]) 0
              (F64.of_Z 14) F64.nan eq_refl eq_refl) as (Hraw & Hnan & _).
  destruct (Hnan eq_refl) as [_ Hshown].
  split; [reflexivity|]. split; [reflexivity|].
  split; [exact Hraw | exact Hshown].
Defined.

(** C3 as stated fails: a salary of zero with a projection of 14 gives
    positive infinity, which is not NaN, and the cell shows [$inf]. *)
Lemma value_per_1k_zero_salary_counterexample :
  nth_error (salary_num [PyStr "$0"]) 0 = Some F64.zero /\
  nth_error (VALUE_PER_1k_raw [F64.of_Z 14] (salary_num [PyStr "$0"])) 0 =
    Some (S754_infinity false) /\
  F64.is_nan (S754_infinity false) = false /\
  nth_error
    (VALUE_PER_1k (VALUE_PER_1k_raw [F64.of_Z 14] (salary_num [PyStr "$0"])))
    0 = Some "$inf"%string /\
  ~ (forall (proj salary : list float) (i : nat) (s v : float),
       nth_error salary i = Some s ->
       F64.is_zero s || F64.is_nan s = true ->
       nth_error (VALUE_PER_1k_raw proj salary) i = Some v ->
       F64.is_nan v = true /\
       nth_error (VALUE_PER_1k (VALUE_PER_1k_raw proj salary)) i =
         Some ""%string).
Proof.
  repeat split.
  intros H.
  destruct (H [F64.of_Z 14] (salary_num [PyStr "$0"]) 0%nat F64.zero
              (S754_infinity false) eq_refl eq_refl eq_refl) as [Hnan _].
  discriminate Hnan.
Qed.

(** ** Stripping *)

Section Strip.

Variable sp : N -> bool.

Lemma rstrip_by_cons (a : N) (u : pystr) :
  rstrip_by sp (a :: u) =
  match rstrip_by sp u with
  | [] => if sp a then [] else [a]
  | r => a :: r
  end.
Proof. reflexivity. Qed.

Lemma lstrip_by_all (u : pystr) :
  forallb sp u = true -> lstrip_by sp u = [].
Proof.
  induction u as [|c u IH]; simpl; [reflexivity|].
  intros H. apply andb_prop in H. destruct H as [Hc Hu].
  rewrite Hc. apply IH. exact Hu.
Qed.

Lemma forallb_lstrip_by (P : N -> bool) (t : pystr) :
  forallb P t = true -> forallb P (lstrip_by sp t) = true.
Proof.
  induction t as [|c t IH]; simpl; [reflexivity|].
  intros H. destruct (sp c); [|exact H].
  apply andb_prop in H. apply IH. tauto.
Qed.

Lemma forallb_rstrip_by (P : N -> bool) (t : pystr) :
  forallb P t = true -> forallb P (rstrip_by sp t) = true.
Proof.
  induction t as [|c t IH]; [reflexivity|].
  cbn [forallb]. intros H. apply andb_prop in H. destruct H as [Hc Ht].
  specialize (IH Ht). rewrite rstrip_by_cons.
  destruct (rstrip_by sp t) as [|d r].
  - destruct (sp c); simpl; [reflexivity|]. rewrite Hc. reflexivity.
  - cbn [forallb] in *. rewrite Hc. exact IH.
Qed.

Lemma forallb_strip_by (P : N -> bool) (t : pystr) :
  forallb P t = true -> forallb P (strip_by sp t) = true.
Proof.
  intros H. unfold strip_by. apply forallb_rstrip_by, forallb_lstrip_by.
  exact H.
Qed.

Lemma rstrip_by_idem (v : pystr) :
  rstrip_by sp (rstrip_by sp v) = rstrip_by sp v.
Proof.
  induction v as [|a v IH]; [reflexivity|].
  rewrite rstrip_by_cons. destruct (rstrip_by sp v) as [|d r] eqn:E.
  - destruct (sp a) eqn:Ha; [reflexivity|].
    cbn [rstrip_by]. rewrite Ha. reflexivity.
  - rewrite rstrip_by_cons, IH. reflexivity.
Qed.

Lemma lstrip_by_idem (v : pystr) :
  lstrip_by sp (lstrip_by sp v) = lstrip_by sp v.
Proof.
  induction v as [|a v IH]; [reflexivity|].
  cbn [lstrip_by]. destruct (sp a) eqn:Ha; [exact IH|].
  cbn [lstrip_by]. rewrite Ha. reflexivity.
Qed.

Lemma rstrip_lstrip_by (u : pystr) :
  rstrip_by sp (lstrip_by sp u) = lstrip_by sp (rstrip_by sp u).
Proof.
  induction u as [|a u IH]; [reflexivity|].
  cbn [lstrip_by]. rewrite rstrip_by_cons. destruct (sp a) eqn:Ha.
  - rewrite IH. destruct (rstrip_by sp u) as [|d r]; [reflexivity|].
    cbn [lstrip_by]. rewrite Ha. reflexivity.
  - rewrite rstrip_by_cons.
    destruct (rstrip_by sp u) as [|d r]; cbn [lstrip_by]; rewrite Ha;
      reflexivity.
Qed.

Lemma strip_by_idem (u : pystr) :
  strip_by sp (strip_by sp u) = strip_by sp u.
Proof.
  unfold strip_by.
  rewrite (rstrip_lstrip_by u), lstrip_by_idem, rstrip_lstrip_by,
    rstrip_by_idem.
  reflexivity.
Qed.

Lemma rstrip_by_id (s : pystr) :
  forallb (fun c => negb (sp c)) s = true -> rstrip_by sp s = s.
Proof.
  induction s as [|c s IH]; [reflexivity|].
  cbn [forallb]. rewrite andb_true_iff, negb_true_iff. intros [Hc Hs].
  rewrite rstrip_by_cons, (IH Hs), Hc. destruct s; reflexivity.
Qed.

Lemma strip_by_id (s : pystr) :
  forallb (fun c => negb (sp c)) s = true -> strip_by sp s = s.
Proof.
  intros H. unfold strip_by.
  assert (Hl : lstrip_by sp s = s).
  { destruct s as [|c s]; [reflexivity|]. cbn [forallb lstrip_by] in *.
    apply andb_prop in H. destruct H as [Hc _].
    apply negb_true_iff in Hc. rewrite Hc. reflexivity. }
  rewrite Hl. apply rstrip_by_id. exact H.
Qed.

Lemma remove_char_cons (c a : N) (u : pystr) :
  remove_char c (a :: u) =
  if N.eqb a c then remove_char c u else a :: remove_char c u.
Proof. reflexivity. Qed.

Lemma eqb_sp_false (a c : N) :
  sp c = false -> sp a = true -> N.eqb a c = false.
Proof.
  intros Hc Ha. destruct (N.eqb_spec a c) as [->|_]; [|reflexivity].
  congruence.
Qed.

Lemma lstrip_by_remove (c : N) (t : pystr) :
  sp c = false ->
  lstrip_by sp (remove_char c (lstrip_by sp t)) =
  lstrip_by sp (remove_char c t).
Proof.
  intros Hc. induction t as [|a t IH]; [reflexivity|].
  cbn [lstrip_by]. destruct (sp a) eqn:Ha; [|reflexivity].
  rewrite IH, remove_char_cons, (eqb_sp_false a c Hc Ha).
  cbn [lstrip_by]. rewrite Ha. reflexivity.
Qed.

Lemma rstrip_by_remove (c : N) (t : pystr) :
  sp c = false ->
  rstrip_by sp (remove_char c (rstrip_by sp t)) =
  rstrip_by sp (remove_char c t).
Proof.
  intros Hc. induction t as [|a t IH]; [reflexivity|].
  rewrite rstrip_by_cons. destruct (rstrip_by sp t) as [|d r] eqn:E.
  - change (remove_char c []) with (@nil N) in IH.
    change (rstrip_by sp []) with (@nil N) in IH.
    destruct (sp a) eqn:Ha.
    + rewrite remove_char_cons, (eqb_sp_false a c Hc Ha), rstrip_by_cons.
      rewrite <- IH, Ha. reflexivity.
    + rewrite !remove_char_cons. destruct (N.eqb a c).
      * exact IH.
      * rewrite !rstrip_by_cons, <- IH. reflexivity.
  - rewrite (remove_char_cons c a (d :: r)), (remove_char_cons c a t).
    destruct (N.eqb a c); [exact IH|].
    rewrite !rstrip_by_cons, IH. reflexivity.
Qed.

Lemma strip_by_remove (c : N) (t : pystr) :
  sp c = false ->
  strip_by sp (remove_char c (strip_by sp t)) = strip_by sp (remove_char c t).
Proof.
  intros Hc. unfold strip_by.
  rewrite (rstrip_lstrip_by (remove_char c _)), rstrip_by_remove by exact Hc.
  rewrite <- rstrip_lstrip_by, lstrip_by_remove by exact Hc.
  reflexivity.
Qed.

End Strip.

(** ** Claims about the field parsers *)

Lemma pystr_eqb_nil (t : pystr) : pystr_eqb t "" = true <-> t = [].
Proof.
  destruct t; simpl; split; intros H; try reflexivity; discriminate H.
Qed.

Ltac bool_to_prop :=
  repeat rewrite ?orb_true_iff, ?andb_true_iff, ?orb_false_iff,
    ?andb_false_iff, ?negb_true_iff, ?negb_false_iff,
    ?N.leb_le, ?N.ltb_lt, ?N.eqb_eq, ?N.leb_gt, ?N.ltb_ge, ?N.eqb_neq in *.

Lemma find_decimal_lt (starts : list N) (c v : N) :
  find_decimal starts c = Some v -> (v < 10)%N.
Proof.
  induction starts as [|s rest IH]; simpl; [discriminate|].
  destruct ((s <=? c) && (c <? s + 10))%N eqn:E; [|exact IH].
  intros H. injection H as <-. bool_to_prop. lia.
Qed.

Lemma ascii_of_space (a : N) :
  is_space a = true -> (28 <=? a)%N && (a <=? 31)%N = false ->
  exists a', ascii_of a = Some a' /\ is_c_space a' = true.
Proof.
  intros Hs Hn. unfold ascii_of. rewrite Hs.
  destruct (N.ltb_spec a 127) as [Hlt|Hge].
  - exists a. split; [reflexivity|].
    unfold is_space, is_c_space in *. bool_to_prop. lia.
  - exists (ch " "). split; reflexivity.
Qed.

Lemma ascii_of_low (a : N) :
  is_space a = true -> exists a', ascii_of a = Some a' /\ low_char a' = true.
Proof.
  intros Hs. unfold ascii_of. rewrite Hs.
  destruct (N.ltb_spec a 127) as [Hlt|Hge].
  - exists a. split; [reflexivity|].
    unfold is_space, low_char in *. bool_to_prop. lia.
  - exists (ch " "). split; reflexivity.
Qed.

Lemma to_ascii_low (u : pystr) :
  forallb is_space u = true -> forallb low_char (to_ascii u) = true.
Proof.
  induction u as [|c u IH]; [reflexivity|].
  cbn [forallb to_ascii]. intros H. apply andb_prop in H.
  destruct H as [Hc Hu]. destruct (ascii_of_low c Hc) as (a & -> & Ha).
  cbn [forallb]. rewrite Ha. apply IH. exact Hu.
Qed.

Lemma low_char_facts (c : N) :
  low_char c = true ->
  is_digit c = false /\ N.eqb c (ch "_") = false /\
  N.eqb c (ch "-") = false /\ N.eqb c (ch "+") = false /\
  N.eqb c (ch ".") = false /\ lower c = c /\
  N.eqb c (ch "i") = false /\ N.eqb c (ch "n") = false.
Proof.
  unfold low_char, is_digit, lower. intros H. apply N.leb_le in H.
  assert (E : ((65 <=? c) && (c <=? 90))%N = false)
    by (bool_to_prop; lia).
  rewrite E. change (ch "_") with 95%N. change (ch "-") with 45%N.
  change (ch "+") with 43%N. change (ch ".") with 46%N.
  change (ch "i") with 105%N. change (ch "n") with 110%N.
  repeat split; bool_to_prop; lia.
Qed.

Lemma drop_underscores_id (prev : N) (s : pystr) :
  N.eqb prev (ch "_") = false ->
  forallb (fun c => negb (N.eqb c (ch "_"))) s = true ->
  drop_underscores prev s = Some s.
Proof.
  revert prev. induction s as [|c s IH]; intros prev Hp H.
  - cbn [drop_underscores]. rewrite Hp. reflexivity.
  - cbn [forallb] in H. apply andb_prop in H. destruct H as [Hc Hs].
    apply negb_true_iff in Hc.
    cbn [drop_underscores]. rewrite Hc, Hp. cbn [andb].
    rewrite (IH c Hc Hs). reflexivity.
Qed.

Lemma forallb_impl (P Q : N -> bool) (s : pystr) :
  (forall c, P c = true -> Q c = true) ->
  forallb P s = true -> forallb Q s = true.
Proof.
  intros HPQ. induction s as [|c s IH]; [reflexivity|].
  cbn [forallb]. rewrite !andb_true_iff. intros [Hc Hs]. auto.
Qed.

(** Text of code points up to the space is no numeral. *)
Lemma read_float_low (v : pystr) :
  forallb low_char v = true -> read_float v = None.
Proof.
  intros H. unfold read_float.
  rewrite drop_underscores_id;
    [| reflexivity
     | apply (forallb_impl low_char); [|exact H];
       intros c Hc; destruct (low_char_facts c Hc) as (_ & -> & _);
       reflexivity].
  destruct v as [|c v]; [reflexivity|].
  cbn [forallb] in H. apply andb_prop in H. destruct H as [Hc _].
  destruct (low_char_facts c Hc) as (Hd & _ & Hm & Hp & Hdot & Hl & Hi & Hn).
  unfold read_sign. rewrite Hm, Hp.
  unfold read_decimal. cbn [read_digits]. rewrite Hd, Hdot.
  cbn iota beta. change (0 <? 0 + 0) with false. cbn iota.
  unfold read_inf_or_nan, lower_str. cbn [map]. rewrite Hl.
  change (of_string "inf") with [ch "i"; ch "n"; ch "f"].
  change (of_string "nan") with [ch "n"; ch "a"; ch "n"].
  change (of_string "infinity")
    with [ch "i"; ch "n"; ch "f"; ch "i"; ch "n"; ch "i"; ch "t"; ch "y"].
  cbn [pystr_eqb]. rewrite Hi, Hn. reflexivity.
Qed.

Lemma py_float_all_space (u : pystr) :
  forallb is_space u = true -> py_float u = None.
Proof.
  intros H. unfold py_float. apply read_float_low.
  apply forallb_strip_by, to_ascii_low. exact H.
Qed.

Lemma forallb_remove_percent (t : pystr) :
  blank_percent t = true ->
  forallb is_space (remove_char (ch "%") t) = true.
Proof.
  unfold blank_percent. induction t as [|c t IH]; [reflexivity|].
  cbn [forallb remove_char]. intros H. apply andb_prop in H.
  destruct H as [Hc Ht].
  destruct (N.eqb c (ch "%")) eqn:E; [apply IH; exact Ht|].
  cbn [forallb]. rewrite orb_false_r in Hc. rewrite Hc. apply IH. exact Ht.
Qed.

Lemma parse_percent_str_blank (t : pystr) :
  blank_percent t = true -> parse_percent_str (PyStr t) = F64.zero.
Proof.
  intros H. unfold parse_percent_str.
  assert (Hs : forallb is_space (remove_char (ch "%") (strip t)) = true).
  { apply forallb_remove_percent. unfold blank_percent, strip.
    apply forallb_strip_by. exact H. }
  destruct (pystr_eqb _ _); [reflexivity|].
  rewrite (py_float_all_space _ Hs). reflexivity.
Qed.

(** *** Where the outer [strip] is absorbed by the one [float] does *)

Lemma to_ascii_remove (c : N) (t : pystr) :
  (c <? 127)%N = true -> is_digit c = false ->
  N.eqb c (ch " ") = false -> N.eqb c (ch "?") = false ->
  to_ascii (remove_char c t) = remove_char c (to_ascii t).
Proof.
  intros Hc Hd Hs Hq. induction t as [|a t IH]; [reflexivity|].
  rewrite remove_char_cons. destruct (N.eqb_spec a c) as [->|Hne].
  - cbn [to_ascii]. unfold ascii_of. rewrite Hc.
    rewrite remove_char_cons, N.eqb_refl. exact IH.
  - cbn [to_ascii]. unfold ascii_of.
    destruct (a <? 127)%N.
    + rewrite remove_char_cons.
      destruct (N.eqb_spec a c) as [E|_]; [contradiction|].
      rewrite IH. reflexivity.
    + destruct (is_space a).
      * rewrite remove_char_cons.
        destruct (N.eqb_spec (ch " ") c) as [E|_];
          [rewrite <- E, N.eqb_refl in Hs; discriminate|].
        rewrite IH. reflexivity.
      * destruct (unicode_decimal a) as [v|] eqn:Ev.
        -- rewrite remove_char_cons.
           assert (Hv := find_decimal_lt _ _ _ Ev).
           destruct (N.eqb_spec (48 + v) c) as [E|_].
           { exfalso. subst c. unfold is_digit in Hd. bool_to_prop. lia. }
           rewrite IH. reflexivity.
        -- cbn [remove_char].
           destruct (N.eqb_spec (ch "?") c) as [E|_];
             [rewrite <- E, N.eqb_refl in Hq; discriminate|].
           reflexivity.
Qed.

Lemma lstrip_to_ascii (t : pystr) :
  no_separators t = true ->
  lstrip_by is_c_space (to_ascii (lstrip_by is_space t)) =
  lstrip_by is_c_space (to_ascii t).
Proof.
  unfold no_separators. induction t as [|a t IH]; [reflexivity|].
  cbn [forallb]. intros H. apply andb_prop in H. destruct H as [Ha Ht].
  apply negb_true_iff in Ha.
  cbn [lstrip_by]. destruct (is_space a) eqn:Hs; [|reflexivity].
  destruct (ascii_of_space a Hs Ha) as (a' & Ea & Hc).
  cbn [to_ascii]. rewrite Ea. cbn [lstrip_by]. rewrite Hc.
  apply IH. exact Ht.
Qed.

Lemma rstrip_to_ascii (t : pystr) :
  no_separators t = true ->
  rstrip_by is_c_space (to_ascii (rstrip_by is_space t)) =
  rstrip_by is_c_space (to_ascii t).
Proof.
  unfold no_separators. induction t as [|a t IH]; [reflexivity|].
  cbn [forallb]. intros H. apply andb_prop in H. destruct H as [Ha Ht].
  apply negb_true_iff in Ha. specialize (IH Ht).
  rewrite rstrip_by_cons. destruct (rstrip_by is_space t) as [|d r] eqn:E.
  - change (to_ascii []) with (@nil N) in IH.
    change (rstrip_by is_c_space []) with (@nil N) in IH.
    destruct (is_space a) eqn:Hs.
    + destruct (ascii_of_space a Hs Ha) as (a' & Ea & Hc).
      cbn [to_ascii]. rewrite Ea, rstrip_by_cons, <- IH, Hc. reflexivity.
    + cbn [to_ascii]. destruct (ascii_of a) as [a'|]; [|reflexivity].
      rewrite !rstrip_by_cons, <- IH. reflexivity.
  - cbn [to_ascii] in *. destruct (ascii_of a) as [a'|]; [|reflexivity].
    rewrite !rstrip_by_cons, IH. reflexivity.
Qed.

Lemma no_separators_lstrip (t : pystr) :
  no_separators t = true -> no_separators (lstrip_by is_space t) = true.
Proof. apply forallb_lstrip_by. Qed.

Lemma strip_to_ascii (t : pystr) :
  no_separators t = true ->
  strip_by is_c_space (to_ascii (strip t)) = strip_by is_c_space (to_ascii t).
Proof.
  intros H. unfold strip, strip_by.
  rewrite (rstrip_lstrip_by is_c_space (to_ascii _)).
  rewrite (rstrip_to_ascii _ (no_separators_lstrip t H)).
  rewrite <- rstrip_lstrip_by, (lstrip_to_ascii t H). reflexivity.
Qed.

Lemma strip_remove_congr (c : N) (a b : pystr) :
  is_c_space c = false ->
  strip_by is_c_space a = strip_by is_c_space b ->
  strip_by is_c_space (remove_char c a) =
  strip_by is_c_space (remove_char c b).
Proof.
  intros Hc E.
  rewrite <- (strip_by_remove is_c_space c a Hc), E.
  apply strip_by_remove. exact Hc.
Qed.

Lemma py_float_remove_strip (c : N) (t : pystr) :
  (c <? 127)%N = true -> is_digit c = false ->
  N.eqb c (ch " ") = false -> N.eqb c (ch "?") = false ->
  is_c_space c = false ->
  no_separators t = true ->
  py_float (remove_char c (strip t)) = py_float (remove_char c t).
Proof.
  intros H1 H2 H3 H4 Hc Ht. unfold py_float.
  rewrite !(to_ascii_remove c _ H1 H2 H3 H4).
  rewrite (strip_remove_congr c _ _ Hc (strip_to_ascii t Ht)). reflexivity.
Qed.

Lemma py_float_remove2_strip (c d : N) (t : pystr) :
  (c <? 127)%N = true -> is_digit c = false ->
  N.eqb c (ch " ") = false -> N.eqb c (ch "?") = false ->
  is_c_space c = false ->
  (d <? 127)%N = true -> is_digit d = false ->
  N.eqb d (ch " ") = false -> N.eqb d (ch "?") = false ->
  is_c_space d = false ->
  no_separators t = true ->
  py_float (remove_char c (remove_char d (strip t))) =
  py_float (remove_char c (remove_char d t)).
Proof.
  intros H1 H2 H3 H4 Hc G1 G2 G3 G4 Hd Ht. unfold py_float.
  rewrite !(to_ascii_remove c _ H1 H2 H3 H4).
  rewrite !(to_ascii_remove d _ G1 G2 G3 G4).
  rewrite (strip_remove_congr c _ _ Hc
             (strip_remove_congr d _ _ Hd (strip_to_ascii t Ht))).
  reflexivity.
Qed.

(** C6. [parse_percent_str] gives 0.0 for a missing cell, for text that is
    empty once the percent symbol and white space are taken out, and for
    text that [float] rejects; for text that [float] accepts it gives the
    number as written: 2.90 for "2.90%", not 0.029.  For text without the
    separator control characters it is [float] of the whole text without
    its percent symbols, with 0.0 for a rejection; a leading separator
    character is stripped by the code although [float] would reject it. *)
Theorem parse_percent_str_spec :
  (forall s, isna s = true -> parse_percent_str s = F64.zero) /\
  (forall t, blank_percent t = true ->
     parse_percent_str (PyStr t) = F64.zero) /\
  (forall t, py_float (remove_char (ch "%") (strip t)) = None ->
     parse_percent_str (PyStr t) = F64.zero) /\
  (forall t x, py_float (remove_char (ch "%") (strip t)) = Some x ->
     parse_percent_str (PyStr t) = x) /\
  (forall t, no_separators t = true ->
     parse_percent_str (PyStr t) =
     match py_float (remove_char (ch "%") t) with
     | Some x => x
     | None => F64.zero
     end) /\
  parse_percent_str (PyStr "2.90%") = F64.div (F64.of_Z 29) (F64.of_Z 10) /\
  F64.eqb (parse_percent_str (PyStr "2.90%"))
          (F64.div (F64.of_Z 29) (F64.of_Z 1000)) = false /\
  parse_percent_str (PyStr "") = F64.zero /\
  parse_percent_str PyNone = F64.zero /\
  parse_percent_str PyNaN = F64.zero /\
  py_float [28; 55]%N = None /\
  parse_percent_str (PyStr [28; 55; 37]%N) = F64.of_Z 7 /\
  parse_percent_str (PyStr [37; 28; 55]%N) = F64.zero.
Proof.
  split; [|split; [|split; [|split; [|split]]]].
  - intros [| |t] H; try reflexivity. discriminate H.
  - apply parse_percent_str_blank.
  - intros t H. unfold parse_percent_str. rewrite H.
    destruct (pystr_eqb _ _); reflexivity.
  - intros t x H. unfold parse_percent_str. rewrite H.
    destruct (pystr_eqb (remove_char (ch "%") (strip t)) "") eqn:E;
      [|reflexivity].
    apply pystr_eqb_nil in E. rewrite E in H. discriminate H.
  - intros t Ht. unfold parse_percent_str.
    rewrite <- (py_float_remove_strip (ch "%") t eq_refl eq_refl eq_refl
                  eq_refl eq_refl Ht).
    destruct (pystr_eqb (remove_char (ch "%") (strip t)) "") eqn:E;
      [|reflexivity].
    apply pystr_eqb_nil in E. rewrite E. reflexivity.
  - vm_compute. repeat split.
Qed.

Lemma parse_percent_str_spec_witness :
  blank_percent " % % " = true /\
  parse_percent_str (PyStr " % % ") = F64.zero /\
  py_float (remove_char (ch "%") (strip "1_0.5 %")) =
    Some (F64.div (F64.of_Z 21) (F64.of_Z 2)) /\
  parse_percent_str (PyStr "1_0.5 %") = F64.div (F64.of_Z 21) (F64.of_Z 2) /\
  no_separators " 12.5 % " = true /\
  parse_percent_str (PyStr " 12.5 % ") = F64.div (F64.of_Z 25) (F64.of_Z 2).
Proof.
  destruct parse_percent_str_spec as (_ & Hblank & _ & Hval & Hall & _).
  split; [reflexivity|]. split; [apply Hblank; reflexivity|].
  split; [reflexivity|]. split; [apply Hval; reflexivity|].
  split; [reflexivity|]. rewrite (Hall " 12.5 % "%string eq_refl).
  reflexivity.
Defined.

(** C7. [parse_salary] takes the currency symbol and the thousands
    separators out of the stripped text and reads the rest as a float; a
    missing cell, empty text and text that [float] rejects give NaN, the
    missing value, which is not zero.  For text without the separator
    control characters the result is [float] of the whole text without
    its currency symbols and commas, wherever they stand. *)
Theorem parse_salary_spec :
  (forall s, isna s = true -> parse_salary s = F64.nan) /\
  (forall t,
     py_float (remove_char (ch ",") (remove_char (ch "$") (strip t))) = None ->
     parse_salary (PyStr t) = F64.nan) /\
  (forall t x,
     py_float (remove_char (ch ",") (remove_char (ch "$") (strip t))) =
       Some x ->
     parse_salary (PyStr t) = x) /\
  (forall t, no_separators t = true ->
     parse_salary (PyStr t) =
     match py_float (remove_char (ch ",") (remove_char (ch "$") t)) with
     | Some x => x
     | None => F64.nan
     end) /\
  parse_salary (PyStr "$10,000.00") = F64.of_Z 10000 /\
  parse_salary (PyStr "") = F64.nan /\
  parse_salary (PyStr "abc") = F64.nan /\
  F64.is_zero F64.nan = false /\
  F64.eqb F64.nan F64.zero = false /\
  py_float [28; 55]%N = None /\
  parse_salary (PyStr [28; 55]%N) = F64.of_Z 7 /\
  parse_salary (PyStr [36; 28; 55]%N) = F64.nan.
Proof.
  split; [|split; [|split; [|split]]].
  - intros [| |t] H; try reflexivity. discriminate H.
  - intros t H. unfold parse_salary. rewrite H. reflexivity.
  - intros t x H. unfold parse_salary. rewrite H. reflexivity.
  - intros t Ht. unfold parse_salary.
    rewrite (py_float_remove2_strip (ch ",") (ch "$") t
               eq_refl eq_refl eq_refl eq_refl eq_refl
               eq_refl eq_refl eq_refl eq_refl eq_refl Ht).
    reflexivity.
  - vm_compute. repeat split.
Qed.

Lemma parse_salary_spec_witness :
  py_float (remove_char (ch ",") (remove_char (ch "$") (strip "$5,600 "))) =
    Some (F64.of_Z 5600) /\
  parse_salary (PyStr "$5,600 ") = F64.of_Z 5600 /\
  py_float (remove_char (ch ",") (remove_char (ch "$") (strip "$-"))) = None /\
  parse_salary (PyStr "$-") = F64.nan /\
  no_separators " 1$2,3 " = true /\
  parse_salary (PyStr " 1$2,3 ") = F64.of_Z 123.
Proof.
  destruct parse_salary_spec as (_ & Hbad & Hval & Hall & _).
  split; [reflexivity|]. split; [apply Hval; reflexivity|].
  split; [reflexivity|]. split; [apply Hbad; reflexivity|].
  split; [reflexivity|]. rewrite (Hall " 1$2,3 "%string eq_refl).
  reflexivity.
Defined.


(** ** Claims about the whole run *)

Lemma has_columns_read (df : DataFrame) :
  forallb (has_column df) columns_read = true ->
  exists salary large ceiling proj player pos team opp value floor ident,
    df = {| Player := Some player; DK_Pos := Some pos; Team := Some team;
            Opp := Some opp; DK_Salary := Some salary; DK_Proj := Some proj;
            DK_Value := Some value; Small_Field := Small_Field df;
            Large_Field := Some large; DK_Floor := Some floor;
            DK_Ceiling := Some ceiling; id_ := Some ident |}.
Proof.
  destruct df as [player pos team opp salary proj value small large floor
                    ceiling ident].
  cbn. rewrite !andb_true_iff.
  destruct salary, large, ceiling, proj, player, pos, team, opp, value,
    floor, ident; cbn; intros H; try (exfalso; intuition discriminate).
  repeat eexists.
Qed.

(** C2. On a table of two rows with ceilings 10 and 20 and large-field
    ownership "50%" twice, the run writes ownership fractions 0.50 and
    0.50, leverage scores 5.0 and 10.0, ceiling ranks "0.00%" and
    "100.00%", ownership ranks "0%" twice and leverage deltas "0.0%" and
    "100.0%". *)
Theorem transform_two_rows
    (w : world) (input_csv output_csv : string) (df : DataFrame) :
  read_csv (fs w) input_csv = Ok df ->
  forallb (has_column df) columns_read = true ->
  DK_Ceiling df = Some [F64.of_Z 10; F64.of_Z 20] ->
  Large_Field df = Some [PyStr "50%"; PyStr "50%"] ->
  exists out,
    transform input_csv output_csv w =
      ({| fs := fs w;
          written := written w ++ [(output_csv, out)];
          stdout := stdout w ++
            [append "Saved transformed projections (large field) to "
                    output_csv] |}, Ok tt) /\
    out_OWN_FRAC out = [F64.half; F64.half] /\
    out_LEVERAGE_SCORE out = [F64.of_Z 5; F64.of_Z 10] /\
    out_CEILING_PCT_RANK out = ["0.00%"; "100.00%"]%string /\
    out_OWNERSHIP_PCT_RANK out = ["0%"; "0%"]%string /\
    out_leverage_delta out = ["0.0%"; "100.0%"]%string.
Proof.
  intros Hread Hcols Hceil Hlarge.
  destruct (has_columns_read df Hcols)
    as (salary & large & ceiling & proj & player & pos & team & opp & value
        & floor & ident & Hdf).
  rewrite Hdf in Hceil, Hlarge. cbn in Hceil, Hlarge.
  injection Hceil as ->. injection Hlarge as ->.
  unfold transform. rewrite Hread. cbn [bind]. rewrite Hdf.
  unfold transform_frame. cbn [getitem bind DK_Salary Large_Field DK_Ceiling
    DK_Proj Player DK_Pos Team Opp DK_Value DK_Floor id_].
  replace (OWNERSHIP_PCT_RANK_out
             (OWNERSHIP_PCT_RANK
                (large_field_pct [PyStr "50%"; PyStr "50%"])))
    with (Ok ["0%"; "0%"]%string) by (vm_compute; reflexivity).
  eexists. split; [reflexivity|].
  cbn [out_OWN_FRAC out_LEVERAGE_SCORE out_CEILING_PCT_RANK
       out_OWNERSHIP_PCT_RANK out_leverage_delta].
  repeat split; vm_compute; reflexivity.
Qed.

Lemma transform_two_rows_witness :
  read_csv (fs (sample_world sample_table)) "in.csv" = Ok sample_table /\
  forallb (has_column sample_table) columns_read = true /\
  DK_Ceiling sample_table = Some [F64.of_Z 10; F64.of_Z 20] /\
  Large_Field sample_table = Some [PyStr "50%"; PyStr "50%"] /\
  exists out,
    written (fst (transform "in.csv" "out.csv" (sample_world sample_table)))
      = [("out.csv"%string, out)] /\
    out_DK_Salary out = ["$5,600.00"; "$4,000.00"]%string /\
    out_VALUE_PER_1k out = ["$2.50"; "$2.00"]%string /\
    out_CEILING_PCT_RANK out = ["0.00%"; "100.00%"]%string /\
    out_OWNERSHIP_PCT_RANK out = ["0%"; "0%"]%string /\
    out_leverage_delta out = ["0.0%"; "100.0%"]%string.
Proof.
  split; [reflexivity|]. split; [reflexivity|].
  split; [reflexivity|]. split; [reflexivity|].
  destruct (transform_two_rows (sample_world sample_table) "in.csv" "out.csv"
              sample_table eq_refl eq_refl eq_refl eq_refl)
    as (out & Hrun & _ & _ & Hc & Ho & Hd).
  exists out. rewrite Hrun. cbn [fst written sample_world app].
  split; [reflexivity|].
  assert (Hout : transform_frame sample_table = Ok out).
  { unfold transform in Hrun. cbn [sample_world fs read_csv] in Hrun.
    change (String.eqb "in.csv" "in.csv") with true in Hrun.
    cbn [bind] in Hrun.
    destruct (transform_frame sample_table) as [o|e] eqn:E.
    - injection Hrun as Hw. rewrite Hw. reflexivity.
    - discriminate Hrun. }
  vm_compute in Hout. injection Hout as <-.
  repeat split.
Defined.

(** C9, as the code has it. When one of the eleven columns the transform
    reads is absent from the table, the run raises and nothing is written
    or printed: the world is left as it was. *)
Theorem transform_missing_column
    (w : world) (input_csv output_csv : string) (df : DataFrame) :
  read_csv (fs w) input_csv = Ok df ->
  forallb (has_column df) columns_read = false ->
  exists e, transform input_csv output_csv w = (w, Raise e).
Proof.
  intros Hread Hmiss. unfold transform. rewrite Hread. cbn [bind].
  destruct (transform_frame df) as [out|e] eqn:E; [|eauto].
  exfalso.
  destruct df as [player pos team opp salary proj value small large floor
                    ceiling ident].
  unfold transform_frame, getitem, bind in E. cbn in E, Hmiss.
  destruct salary; [|discriminate E].
  destruct large; [|discriminate E].
  destruct ceiling; [|discriminate E].
  destruct proj; [|discriminate E].
  destruct (OWNERSHIP_PCT_RANK_out _); [|discriminate E].
  destruct player, pos, team, opp, value, floor, ident;
    try discriminate E; discriminate Hmiss.
Qed.

Lemma transform_missing_column_witness :
  read_csv (fs (sample_world table_without_floor)) "in.csv" =
    Ok table_without_floor /\
  forallb (has_column table_without_floor) columns_read = false /\
  exists e, transform "in.csv" "out.csv" (sample_world table_without_floor)
            = (sample_world table_without_floor, Raise e).
Proof.
  split; [reflexivity|]. split; [reflexivity|].
  apply (transform_missing_column (sample_world table_without_floor)
           "in.csv" "out.csv" table_without_floor);
    reflexivity.
Defined.

(** C9 as stated fails for the column list of the specification: a table
    that lacks only "Small Field" is transformed and written. *)
Lemma transform_without_small_field_counterexample :
  forallb (has_column sample_no_small_field) spec_required_columns = false /\
  (exists out,
     transform "in.csv" "out.csv" (sample_world sample_no_small_field) =
     ({| fs := fs (sample_world sample_no_small_field);
         written := [("out.csv"%string, out)];
         stdout := ["Saved transformed projections (large field) to out.csv"
                   ]%string |}, Ok tt)) /\
  ~ (forall (w : world) (input_csv output_csv : string) (df : DataFrame),
       read_csv (fs w) input_csv = Ok df ->
       forallb (has_column df) spec_required_columns = false ->
       exists e, transform input_csv output_csv w = (w, Raise e)).
Proof.
  split; [reflexivity|]. split.
  - eexists. vm_compute. reflexivity.
  - intros H.
    destruct (H (sample_world sample_no_small_field) "in.csv" "out.csv"
                sample_no_small_field eq_refl eq_refl)%string as [e He].
    vm_compute in He. discriminate He.
Qed.

(** * Further properties of the percentile ranker *)

Lemma count_eq_pos (x : float) (l : list float) :
  In x l -> F64.is_nan x = false -> (1 <= count_eq x l)%nat.
Proof.
  intros Hin Hx. unfold count_eq.
  induction l as [|y l IH]; [destruct Hin|].
  simpl. destruct Hin as [-> | Hin].
  - rewrite (eqb_refl x Hx). simpl. lia.
  - specialize (IH Hin). destruct (F64.eqb y x); simpl; lia.
Qed.

Lemma percentrank_inc_nth_count (values : list float) (use_first : bool)
    (i : nat) (x : float) :
  (2 <= List.length values)%nat ->
  nth_error values i = Some x ->
  F64.is_nan x = false ->
  nth_error (percentrank_inc values use_first) i =
  Some (F64.div
          (F64.of_nat (if use_first then count_lt x values
                       else (count_lt x values + count_eq x values - 1)%nat))
          (F64.of_nat (List.length values - 1))).
Proof.
  intros Hn Hx Hnan. rewrite percentrank_inc_by_count.
  destruct (Nat.leb_spec (List.length values) 1) as [Hle|_]; [lia|].
  rewrite nth_error_map, Hx. cbn [option_map]. f_equal.
  unfold rank_by_count.
  assert (Hpos := count_eq_pos x values (nth_error_In values i Hx) Hnan).
  destruct (count_eq x values) as [|c]; [lia|].
  destruct use_first; [reflexivity|].
  do 2 f_equal. lia.
Qed.

Lemma sorted_nth (s : list float) :
  StronglySorted np_le s ->
  forall p q y z, (p < q)%nat ->
    nth_error s p = Some y -> nth_error s q = Some z -> np_lt z y = false.
Proof.
  induction 1 as [|a s Hs IH Hall]; intros p q y z Hpq Hp Hq.
  - destruct p; discriminate Hp.
  - destruct q as [|q]; [lia|]. cbn [nth_error] in Hq.
    destruct p as [|p]; cbn [nth_error] in Hp.
    + injection Hp as <-. rewrite Forall_forall in Hall.
      apply (Hall z). apply (nth_error_In s q Hq).
    + apply (IH p q y z); [lia | exact Hp | exact Hq].
Qed.

Lemma first_match_unique (s : list float) (x : float) (j j' : nat) :
  first_match s x j = true -> first_match s x j' = true -> j = j'.
Proof.
  unfold first_match. intros H H'.
  apply andb_prop in H, H'. destruct H as [Hm Ha], H' as [Hm' Ha'].
  destruct (Nat.lt_trichotomy j j') as [Hlt|[Heq|Hgt]]; [|exact Heq|].
  - rewrite (is_match_forallb_seq s x 0 j' j Ha') in Hm; [discriminate|lia].
  - rewrite (is_match_forallb_seq s x 0 j j' Ha) in Hm'; [discriminate|lia].
Qed.

Lemma last_match_unique (s : list float) (x : float) (j j' : nat) :
  last_match s x j = true -> last_match s x j' = true -> j = j'.
Proof.
  unfold last_match. intros H H'.
  apply andb_prop in H, H'. destruct H as [Hm Ha], H' as [Hm' Ha'].
  assert (Hl := is_match_lt_length s x j Hm).
  assert (Hl' := is_match_lt_length s x j' Hm').
  destruct (Nat.lt_trichotomy j j') as [Hlt|[Heq|Hgt]]; [|exact Heq|].
  - rewrite (is_match_forallb_seq s x _ _ j' Ha) in Hm'; [discriminate|lia].
  - rewrite (is_match_forallb_seq s x _ _ j Ha') in Hm; [discriminate|lia].
Qed.

Lemma tie_break_match_count (values : list float) (use_first : bool)
    (x : float) :
  In x values -> F64.is_nan x = false ->
  tie_break_match use_first (np_sort values) x
    (if use_first then count_lt x values
     else (count_lt x values + count_eq x values - 1)%nat) = true.
Proof.
  intros Hin Hnan.
  assert (Hw := np_where_eq_sorted (np_sort values) x
                  (np_sort_sorted values) Hnan 0%nat).
  rewrite (count_lt_perm x _ _ (np_sort_perm values)) in Hw.
  rewrite (count_eq_perm x _ _ (np_sort_perm values)) in Hw.
  assert (Hpos := count_eq_pos x values Hin Hnan).
  destruct (count_eq x values) as [|c] eqn:Ec; [lia|].
  cbn [seq Nat.add] in Hw.
  destruct (np_where_eq_ends (np_sort values) x _ _ Hw) as [Hf Hl].
  destruct use_first; cbn [tie_break_match]; [exact Hf|].
  change (count_lt x values :: seq (S (count_lt x values)) c)
    with (seq (count_lt x values) (S c)) in Hl.
  rewrite last_seq in Hl.
  replace (count_lt x values + S c - 1)%nat with (count_lt x values + c)%nat
    by lia.
  exact Hl.
Qed.

(** C1, as the code has it. For a sequence of at least two floats and
    either tie-break: the sorted copy is a rearrangement of the input in
    ascending order with every NaN after every number; an element that is
    not NaN has exactly one position under the tie-break (the first index
    of the sorted copy whose element equals it under FIRST, the last under
    LAST), that position is the number of elements below it (plus, under
    LAST, the number of elements equal to it, minus one), and its rank is
    the position divided by [n - 1]; a NaN element equals no element of
    the sorted copy and is ranked 0.5. *)
Theorem percentrank_inc_follows_algorithm
    (values : list float) (use_first : bool) (i : nat) (x : float) :
  (2 <= List.length values)%nat ->
  nth_error values i = Some x ->
  Permutation (np_sort values) values /\
  (forall p q y z, (p < q)%nat ->
     nth_error (np_sort values) p = Some y ->
     nth_error (np_sort values) q = Some z ->
     F64.ltb z y = false /\ (F64.is_nan y = true -> F64.is_nan z = true)) /\
  (F64.is_nan x = false ->
     exists j,
       tie_break_match use_first (np_sort values) x j = true /\
       (forall j', tie_break_match use_first (np_sort values) x j' = true ->
                   j' = j) /\
       j = (if use_first then count_lt x values
            else (count_lt x values + count_eq x values - 1)%nat) /\
       nth_error (percentrank_inc values use_first) i =
       Some (F64.div (F64.of_nat j) (F64.of_nat (List.length values - 1)))) /\
  (F64.is_nan x = true ->
     (forall j, is_match (np_sort values) x j = false) /\
     nth_error (percentrank_inc values use_first) i = Some F64.half).
Proof.
  intros Hn Hx. split; [apply np_sort_perm|]. split; [|split].
  - intros p q y z Hpq Hp Hq.
    assert (H := sorted_nth _ (np_sort_sorted values) p q y z Hpq Hp Hq).
    unfold np_lt in H. apply orb_false_iff in H. destruct H as [H1 H2].
    split; [exact H1|]. intros Hy. rewrite Hy in H2. cbn [andb] in H2.
    apply negb_false_iff in H2. exact H2.
  - intros Hnan. eexists. split; [|split; [|split; [reflexivity|]]].
    + apply (tie_break_match_count values use_first x
               (nth_error_In values i Hx) Hnan).
    + intros j' Hj'.
      assert (Hj := tie_break_match_count values use_first x
                      (nth_error_In values i Hx) Hnan).
      destruct use_first; cbn [tie_break_match] in *.
      * apply (first_match_unique _ _ _ _ Hj' Hj).
      * apply (last_match_unique _ _ _ _ Hj' Hj).
    + apply (percentrank_inc_nth_count values use_first i x Hn Hx Hnan).
  - intros Hnan. destruct x; try discriminate. split.
    + intros j. unfold is_match.
      destruct (nth_error (np_sort values) j); [apply eqb_nan_r|reflexivity].
    + rewrite (percentrank_inc_nth_error values use_first i _ Hn Hx).
      rewrite rank_of_nan. reflexivity.
Qed.

(** The tied pair [5, 5] under LAST: both elements sit at position 1 and
    are ranked 1.0. *)
Lemma percentrank_inc_follows_algorithm_witness :
  (2 <= List.length [F64.of_Z 5; F64.of_Z 5])%nat /\
  nth_error [F64.of_Z 5; F64.of_Z 5] 0 = Some (F64.of_Z 5) /\
  F64.is_nan (F64.of_Z 5) = false /\
  exists j,
    tie_break_match false (np_sort [F64.of_Z 5; F64.of_Z 5]) (F64.of_Z 5) j
      = true /\
    j = 1%nat /\
    nth_error (percentrank_inc [F64.of_Z 5; F64.of_Z 5] false) 0 =
    Some (F64.div (F64.of_nat j) (F64.of_nat (2 - 1))).
Proof.
  split; [simpl; lia|]. split; [reflexivity|]. split; [reflexivity|].
  destruct (percentrank_inc_follows_algorithm
              [F64.of_Z 5; F64.of_Z 5] false 0 (F64.of_Z 5)
              (le_n 2) eq_refl) as (_ & _ & H & _).
  destruct (H eq_refl) as (j & Hm & _ & Hj & Hr).
  exists j. split; [exact Hm|]. split; [exact Hj | exact Hr].
Defined.

(** C1 as stated fails where an element is NaN. In [1.0, NaN] the NaN sits
    at index 1 of the sorted copy, the only index it could have, and
    equals no element of it; the claim gives it 1/(2-1) = 1.0, or no rank
    at all, and the code ranks it 0.5, which is neither 0/1 nor 1/1. *)
Lemma percentrank_inc_nan_counterexample :
  np_sort [F64.of_Z 1; F64.nan] = [F64.of_Z 1; F64.nan] /\
  forallb (fun j => negb (is_match (np_sort [F64.of_Z 1; F64.nan]) F64.nan j))
          [0; 1]%nat = true /\
  nth_error (percentrank_inc [F64.of_Z 1; F64.nan] true) 1 = Some F64.half /\
  nth_error (percentrank_inc [F64.of_Z 1; F64.nan] false) 1 = Some F64.half /\
  forallb (fun j => negb (F64.eqb F64.half
                            (F64.div (F64.of_nat j) (F64.of_nat (2 - 1)))))
          [0; 1]%nat = true /\
  ~ (forall (values : list float) (use_first : bool) (i : nat) (x : float),
       (2 <= List.length values)%nat ->
       nth_error values i = Some x ->
       exists j,
         nth_error (np_sort values) j = Some x /\
         nth_error (percentrank_inc values use_first) i =
         Some (F64.div (F64.of_nat j)
                       (F64.of_nat (List.length values - 1)))).
Proof.
  split; [reflexivity|]. split; [reflexivity|]. split; [reflexivity|].
  split; [reflexivity|]. split; [reflexivity|].
  intros H.
  destruct (H [F64.of_Z 1; F64.nan] false 1%nat F64.nan (le_n 2) eq_refl)
    as (j & Hj & Hr).
  destruct j as [|[|j]].
  - discriminate Hj.
  - vm_compute in Hr. discriminate Hr.
  - destruct j; discriminate Hj.
Qed.

(** Equal floats are not told apart by any comparison against a third. *)
Lemma eqb_compat (x y z : float) :
  F64.eqb x y = true ->
  F64.eqb z x = F64.eqb z y /\ F64.ltb z x = F64.ltb z y.
Proof.
  intros E. apply eqb_key in E. destruct E as [Hk Hx].
  assert (Hy : F64.is_nan y = false).
  { destruct (F64.is_nan y) eqn:Ey; [|reflexivity].
    apply is_nan_key in Ey.
    assert (Hx' : k1 x <> 5) by (intros E5; apply is_nan_key in E5; congruence).
    unfold key_eq in Hk. lia. }
  assert (He1 := eqb_key z x). assert (He2 := eqb_key z y).
  assert (Hl1 := ltb_key z x). assert (Hl2 := ltb_key z y).
  rewrite Hx in Hl1. rewrite Hy in Hl2.
  split.
  - destruct (F64.eqb z x), (F64.eqb z y); try reflexivity; exfalso.
    + assert (H1 : key_eq z x /\ F64.is_nan z = false) by tauto.
      assert (H2 : ~ (key_eq z y /\ F64.is_nan z = false))
        by (intros H; apply He2 in H; discriminate).
      apply H2. split; [|tauto]. unfold key_eq in *. lia.
    + assert (H1 : key_eq z y /\ F64.is_nan z = false) by tauto.
      assert (H2 : ~ (key_eq z x /\ F64.is_nan z = false))
        by (intros H; apply He1 in H; discriminate).
      apply H2. split; [|tauto]. unfold key_eq in *. lia.
  - destruct (F64.ltb z x), (F64.ltb z y); try reflexivity; exfalso.
    + assert (H1 : key_lt z x) by tauto.
      assert (H2 : ~ key_lt z y)
        by (intros H; assert (false = true) by tauto; discriminate).
      unfold key_lt, key_eq in *. lia.
    + assert (H1 : key_lt z y) by tauto.
      assert (H2 : ~ key_lt z x)
        by (intros H; assert (false = true) by tauto; discriminate).
      unfold key_lt, key_eq in *. lia.
Qed.

Lemma count_eq_eqb (l : list float) (x y : float) :
  F64.eqb x y = true -> count_eq x l = count_eq y l.
Proof.
  intros E. unfold count_eq. induction l as [|z l IH]; [reflexivity|].
  cbn [filter]. destruct (eqb_compat x y z E) as [Hz _]. rewrite Hz.
  destruct (F64.eqb z y); cbn [List.length]; congruence.
Qed.

Lemma count_lt_eqb (l : list float) (x y : float) :
  F64.eqb x y = true -> count_lt x l = count_lt y l.
Proof.
  intros E. unfold count_lt. induction l as [|z l IH]; [reflexivity|].
  cbn [filter]. destruct (eqb_compat x y z E) as [_ Hz]. rewrite Hz.
  destruct (F64.ltb z y); cbn [List.length]; congruence.
Qed.

Lemma rank_by_count_eqb (l : list float) (use_first : bool) (x y : float) :
  F64.eqb x y = true -> rank_by_count l use_first x = rank_by_count l use_first y.
Proof.
  intros E. unfold rank_by_count.
  rewrite (count_eq_eqb l x y E), (count_lt_eqb l x y E). reflexivity.
Qed.

(** X1. For a sequence of at least two values, the rank of a value that is
    not NaN is a count divided by [n - 1]: under FIRST the number of
    elements strictly below it, under LAST that number plus the number of
    elements equal to it, minus one. *)
Theorem percentrank_inc_counts (values : list float) (i : nat) (x : float) :
  (2 <= List.length values)%nat ->
  nth_error values i = Some x ->
  F64.is_nan x = false ->
  nth_error (percentrank_inc values true) i =
    Some (F64.div (F64.of_nat (count_lt x values))
                  (F64.of_nat (List.length values - 1))) /\
  nth_error (percentrank_inc values false) i =
    Some (F64.div
            (F64.of_nat (count_lt x values + count_eq x values - 1))
            (F64.of_nat (List.length values - 1))).
Proof.
  intros Hn Hx Hnan. split.
  - apply (percentrank_inc_nth_count values true i x Hn Hx Hnan).
  - apply (percentrank_inc_nth_count values false i x Hn Hx Hnan).
Qed.

Lemma percentrank_inc_counts_witness :
  (2 <= List.length [F64.of_Z 7; F64.of_Z 3; F64.of_Z 7; F64.of_Z 9])%nat /\
  nth_error [F64.of_Z 7; F64.of_Z 3; F64.of_Z 7; F64.of_Z 9] 0 =
    Some (F64.of_Z 7) /\
  F64.is_nan (F64.of_Z 7) = false /\
  nth_error
    (percentrank_inc [F64.of_Z 7; F64.of_Z 3; F64.of_Z 7; F64.of_Z 9] true) 0 =
    Some (F64.div (F64.of_nat 1) (F64.of_nat 3)) /\
  nth_error
    (percentrank_inc [F64.of_Z 7; F64.of_Z 3; F64.of_Z 7; F64.of_Z 9] false) 0 =
    Some (F64.div (F64.of_nat 2) (F64.of_nat 3)).
Proof.
  split; [simpl; lia|]. split; [reflexivity|]. split; [reflexivity|].
  apply (percentrank_inc_counts
           [F64.of_Z 7; F64.of_Z 3; F64.of_Z 7; F64.of_Z 9] 0 (F64.of_Z 7));
    [simpl; lia | reflexivity | reflexivity].
Defined.

(** X2. When no two elements compare equal, the two tie-breaks give the
    same ranks. *)
Theorem percentrank_inc_no_ties (values : list float) :
  no_ties values = true ->
  percentrank_inc values true = percentrank_inc values false.
Proof.
  intros H. rewrite !percentrank_inc_by_count.
  destruct (List.length values <=? 1)%nat; [reflexivity|].
  apply map_ext_in. intros x Hx.
  unfold no_ties in H. rewrite forallb_forall in H.
  specialize (H x Hx). apply Nat.leb_le in H.
  unfold rank_by_count.
  destruct (count_eq x values) as [|[|c]]; [reflexivity| |lia].
  rewrite Nat.add_0_r. reflexivity.
Qed.

Lemma percentrank_inc_no_ties_witness :
  no_ties [F64.of_Z 3; F64.nan; F64.of_Z 1; F64.nan; F64.of_Z 2] = true /\
  percentrank_inc [F64.of_Z 3; F64.nan; F64.of_Z 1; F64.nan; F64.of_Z 2] true =
  percentrank_inc [F64.of_Z 3; F64.nan; F64.of_Z 1; F64.nan; F64.of_Z 2] false.
Proof.
  split; [reflexivity|].
  apply (percentrank_inc_no_ties
           [F64.of_Z 3; F64.nan; F64.of_Z 1; F64.nan; F64.of_Z 2]).
  reflexivity.
Defined.

(** X3. Two elements that compare equal receive the same rank, whatever
    the tie-break and the length: positive and negative zero are ranked
    alike. *)
Theorem percentrank_inc_ties_equal
    (values : list float) (use_first : bool) (i j : nat) (x y : float) :
  nth_error values i = Some x ->
  nth_error values j = Some y ->
  F64.eqb x y = true ->
  nth_error (percentrank_inc values use_first) i =
  nth_error (percentrank_inc values use_first) j.
Proof.
  intros Hx Hy E. rewrite percentrank_inc_by_count.
  destruct (List.length values <=? 1)%nat.
  - rewrite !nth_error_map, Hx, Hy. reflexivity.
  - rewrite !nth_error_map, Hx, Hy. cbn [option_map]. f_equal.
    apply rank_by_count_eqb. exact E.
Qed.

Lemma percentrank_inc_ties_equal_witness :
  nth_error [S754_zero false; F64.of_Z (-1); S754_zero true] 0 =
    Some (S754_zero false) /\
  nth_error [S754_zero false; F64.of_Z (-1); S754_zero true] 2 =
    Some (S754_zero true) /\
  F64.eqb (S754_zero false) (S754_zero true) = true /\
  nth_error
    (percentrank_inc [S754_zero false; F64.of_Z (-1); S754_zero true] false) 0 =
  nth_error
    (percentrank_inc [S754_zero false; F64.of_Z (-1); S754_zero true] false) 2.
Proof.
  split; [reflexivity|]. split; [reflexivity|]. split; [reflexivity|].
  apply (percentrank_inc_ties_equal
           [S754_zero false; F64.of_Z (-1); S754_zero true] false 0 2
           (S754_zero false) (S754_zero true));
    reflexivity.
Defined.

(** X4. For an element of the sequence, the search in the sorted copy
    finds no index exactly when the element is NaN: the fallback branch is
    taken for NaN and for nothing else. *)
Theorem percentrank_inc_not_found_iff_nan
    (values : list float) (i : nat) (x : float) :
  nth_error values i = Some x ->
  (np_where_eq (np_sort values) x = [] <-> F64.is_nan x = true).
Proof.
  intros Hx. split.
  - intros Hnil. destruct (F64.is_nan x) eqn:Hnan; [reflexivity|].
    exfalso.
    assert (Hin : In x (np_sort values)).
    { apply (Permutation_in x (Permutation_sym (np_sort_perm values))).
      apply (nth_error_In values i Hx). }
    destruct (In_nth_error _ _ Hin) as [j Hj].
    assert (Hm : In j (np_where_eq_from 0 (np_sort values) x)).
    { apply np_where_eq_from_In. split; [lia|].
      rewrite Nat.sub_0_r. unfold is_match. rewrite Hj.
      apply eqb_refl. exact Hnan. }
    unfold np_where_eq in Hnil. rewrite Hnil in Hm. destruct Hm.
  - intros Hnan. destruct x; try discriminate.
    apply np_where_eq_nan.
Qed.

Lemma percentrank_inc_not_found_iff_nan_witness :
  nth_error [F64.of_Z 4; F64.nan] 1 = Some F64.nan /\
  np_where_eq (np_sort [F64.of_Z 4; F64.nan]) F64.nan = [] /\
  nth_error [F64.of_Z 4; F64.nan] 0 = Some (F64.of_Z 4) /\
  np_where_eq (np_sort [F64.of_Z 4; F64.nan]) (F64.of_Z 4) <> [].
Proof.
  split; [reflexivity|]. split.
  - apply (proj2 (percentrank_inc_not_found_iff_nan
                    [F64.of_Z 4; F64.nan] 1 F64.nan eq_refl)).
    reflexivity.
  - split; [reflexivity|]. intros Hnil.
    apply (proj1 (percentrank_inc_not_found_iff_nan
                    [F64.of_Z 4; F64.nan] 0 (F64.of_Z 4) eq_refl)) in Hnil.
    discriminate Hnil.
Defined.

Lemma ltb_not_nan (x y : float) :
  F64.ltb x y = true -> F64.is_nan x = false /\ F64.is_nan y = false.
Proof.
  intros H. apply ltb_key in H. destruct H as [Hk Hy]. split; [|exact Hy].
  destruct (F64.is_nan x) eqn:Hx; [|reflexivity].
  apply is_nan_key in Hx. assert (Hr := k1_range y).
  assert (Hy' : k1 y <> 5) by (intros E; apply is_nan_key in E; congruence).
  unfold key_lt in Hk. lia.
Qed.

Lemma count_below (x y : float) (l : list float) :
  F64.ltb x y = true -> (count_lt x l + count_eq x l <= count_lt y l)%nat.
Proof.
  intros Hxy. unfold count_lt, count_eq.
  apply ltb_key in Hxy. destruct Hxy as [Hxy Hy].
  induction l as [|z l IH]; [simpl; lia|]. cbn [filter].
  assert (H1 := ltb_key z x). assert (H2 := eqb_key z x).
  assert (H3 := ltb_key z y). rewrite Hy in H3.
  destruct (F64.ltb z x) eqn:E1, (F64.eqb z x) eqn:E2,
    (F64.ltb z y) eqn:E3; cbn [List.length]; try lia; exfalso.
  - assert (key_lt z x) by tauto. assert (key_eq z x) by tauto.
    unfold key_lt, key_eq in *. lia.
  - assert (key_lt z x) by tauto. assert (key_eq z x) by tauto.
    unfold key_lt, key_eq in *. lia.
  - assert (key_lt z x) by tauto.
    assert (~ key_lt z y)
      by (intros H'; assert (false = true) by tauto; discriminate).
    unfold key_lt in *. lia.
  - assert (key_eq z x) by tauto.
    assert (~ key_lt z y)
      by (intros H'; assert (false = true) by tauto; discriminate).
    unfold key_lt, key_eq in *. lia.
Qed.

Lemma count_partition (y : float) (l : list float) :
  (count_lt y l + count_eq y l + count_nan l <= List.length l)%nat.
Proof.
  unfold count_lt, count_eq, count_nan.
  induction l as [|z l IH]; [simpl; lia|]. cbn [filter].
  assert (H1 := ltb_key z y). assert (H2 := eqb_key z y).
  assert (H3 := ltb_not_nan z y).
  destruct (F64.ltb z y) eqn:E1, (F64.eqb z y) eqn:E2,
    (F64.is_nan z) eqn:E3; cbn [List.length]; try lia; exfalso;
    first
      [ destruct (H3 eq_refl) as [Hz _]; discriminate Hz
      | assert (Hz : key_eq z y /\ true = false) by tauto;
        destruct Hz as [_ Hz]; discriminate Hz
      | assert (key_lt z y) by tauto; assert (key_eq z y) by tauto;
        unfold key_lt, key_eq in *; lia ].
Qed.

(** X5. In a sequence of at least two values, a strictly smaller value has
    a strictly smaller rank numerator than a larger one, whichever
    tie-break each is ranked under: the last position of the smaller is
    before the first position of the larger. *)
Theorem percentrank_inc_order
    (values : list float) (uf1 uf2 : bool) (i j : nat) (x y : float) :
  (2 <= List.length values)%nat ->
  nth_error values i = Some x ->
  nth_error values j = Some y ->
  F64.ltb x y = true ->
  exists a b : nat,
    nth_error (percentrank_inc values uf1) i =
      Some (F64.div (F64.of_nat a) (F64.of_nat (List.length values - 1))) /\
    nth_error (percentrank_inc values uf2) j =
      Some (F64.div (F64.of_nat b) (F64.of_nat (List.length values - 1))) /\
    (a < b)%nat.
Proof.
  intros Hn Hx Hy Hlt. destruct (ltb_not_nan x y Hlt) as [Hnx Hny].
  eexists. eexists. split; [|split].
  - apply (percentrank_inc_nth_count values uf1 i x Hn Hx Hnx).
  - apply (percentrank_inc_nth_count values uf2 j y Hn Hy Hny).
  - assert (H1 := count_below x y values Hlt).
    assert (H2 := count_eq_pos x values (nth_error_In values i Hx) Hnx).
    assert (H3 := count_eq_pos y values (nth_error_In values j Hy) Hny).
    destruct uf1, uf2; lia.
Qed.

Lemma percentrank_inc_order_witness :
  (2 <= List.length [F64.of_Z 7; F64.of_Z 3; F64.of_Z 3])%nat /\
  nth_error [F64.of_Z 7; F64.of_Z 3; F64.of_Z 3] 1 = Some (F64.of_Z 3) /\
  nth_error [F64.of_Z 7; F64.of_Z 3; F64.of_Z 3] 0 = Some (F64.of_Z 7) /\
  F64.ltb (F64.of_Z 3) (F64.of_Z 7) = true /\
  exists a b : nat,
    nth_error (percentrank_inc [F64.of_Z 7; F64.of_Z 3; F64.of_Z 3] false) 1 =
      Some (F64.div (F64.of_nat a) (F64.of_nat (3 - 1))) /\
    nth_error (percentrank_inc [F64.of_Z 7; F64.of_Z 3; F64.of_Z 3] true) 0 =
      Some (F64.div (F64.of_nat b) (F64.of_nat (3 - 1))) /\
    (a < b)%nat.
Proof.
  split; [simpl; lia|]. split; [reflexivity|]. split; [reflexivity|].
  split; [reflexivity|].
  apply (percentrank_inc_order [F64.of_Z 7; F64.of_Z 3; F64.of_Z 3]
           false true 1 0 (F64.of_Z 3) (F64.of_Z 7));
    [simpl; lia | reflexivity | reflexivity | reflexivity].
Defined.

(** X6. In a sequence of at least two values, the rank numerator of a
    value that is not NaN is at most [n - 1] less the number of NaN
    elements: every NaN in the column keeps all ranks one step further
    from [(n - 1) / (n - 1)]. *)
Theorem percentrank_inc_numerator_bound
    (values : list float) (use_first : bool) (i : nat) (x : float) :
  (2 <= List.length values)%nat ->
  nth_error values i = Some x ->
  F64.is_nan x = false ->
  exists a : nat,
    nth_error (percentrank_inc values use_first) i =
      Some (F64.div (F64.of_nat a) (F64.of_nat (List.length values - 1))) /\
    (a + count_nan values <= List.length values - 1)%nat.
Proof.
  intros Hn Hx Hnan. eexists. split.
  - apply (percentrank_inc_nth_count values use_first i x Hn Hx Hnan).
  - assert (H1 := count_partition x values).
    assert (H2 := count_eq_pos x values (nth_error_In values i Hx) Hnan).
    destruct use_first; lia.
Qed.

Lemma percentrank_inc_numerator_bound_witness :
  (2 <= List.length [F64.of_Z 10; F64.nan; F64.of_Z 20])%nat /\
  nth_error [F64.of_Z 10; F64.nan; F64.of_Z 20] 2 = Some (F64.of_Z 20) /\
  F64.is_nan (F64.of_Z 20) = false /\
  exists a : nat,
    nth_error (percentrank_inc [F64.of_Z 10; F64.nan; F64.of_Z 20] false) 2 =
      Some (F64.div (F64.of_nat a) (F64.of_nat (3 - 1))) /\
    (a + count_nan [F64.of_Z 10; F64.nan; F64.of_Z 20] <= 3 - 1)%nat.
Proof.
  split; [simpl; lia|]. split; [reflexivity|]. split; [reflexivity|].
  apply (percentrank_inc_numerator_bound
           [F64.of_Z 10; F64.nan; F64.of_Z 20] false 2 (F64.of_Z 20));
    [simpl; lia | reflexivity | reflexivity].
Defined.

(** * Further properties of the transform *)

Lemma map2_length {A B C : Type} (f : A -> B -> C) (l : list A) (l' : list B) :
  List.length (map2 f l l') = Nat.min (List.length l) (List.length l').
Proof.
  revert l'. induction l as [|a l IH]; intros [|b l']; simpl; try reflexivity.
  rewrite IH. reflexivity.
Qed.

Lemma mapM_length {A B : Type} (f : A -> result B) (l : list A) (r : list B) :
  mapM f l = Ok r -> List.length r = List.length l.
Proof.
  revert r. induction l as [|a l IH]; intros r; simpl.
  - intros H. injection H as <-. reflexivity.
  - destruct (f a) as [b|e]; simpl; [|discriminate].
    destruct (mapM f l) as [bs|e]; simpl; [|discriminate].
    intros H. injection H as <-. simpl. rewrite (IH bs eq_refl). reflexivity.
Qed.

(** X7. A run that succeeds on a table of [n] rows writes [n] rows in
    every one of the sixteen output columns. *)
Theorem transform_frame_row_count (n : nat) (df : DataFrame) (out : OutFrame) :
  has_rows n df = true ->
  transform_frame df = Ok out ->
  out_has_rows n out = true.
Proof.
  intros Hrows Hrun.
  destruct df as [player pos team opp salary proj value small large floor
                    ceiling ident].
  unfold has_rows in Hrows. cbn in Hrows.
  rewrite !andb_true_iff in Hrows.
  destruct Hrows as ((((((((((H1 & H2) & H3) & H4) & H5) & H6) & H7) & H8)
                        & H9) & H10) & H11).
  destruct player as [player|], pos as [pos|], team as [team|],
    opp as [opp|], salary as [salary|], proj as [proj|], value as [value|],
    large as [large|], floor as [floor|], ceiling as [ceiling|],
    ident as [ident|]; try discriminate.
  cbn in H1, H2, H3, H4, H5, H6, H7, H8, H9, H10, H11.
  apply Nat.eqb_eq in H1, H2, H3, H4, H5, H6, H7, H8, H9, H10, H11.
  unfold transform_frame, getitem, bind in Hrun. cbn in Hrun.
  destruct (OWNERSHIP_PCT_RANK_out _) as [orank|e] eqn:Eo; [|discriminate].
  injection Hrun as <-.
  apply mapM_length in Eo.
  unfold out_has_rows. cbn.
  unfold DK_Salary_out, OWN_FRAC, LEVERAGE_SCORE, VALUE_PER_1k,
    VALUE_PER_1k_raw, CEILING_PCT_RANK_out, CEILING_PCT_RANK,
    leverage_delta_out, leverage_delta_raw, CEILING_PCT_RANK,
    OWNERSHIP_PCT_RANK, salary_num, large_field_pct in *.
  rewrite Eo.
  rewrite ?length_map, ?map2_length, ?length_map, ?percentrank_inc_length,
    ?length_map.
  rewrite H1, H2, H3, H4, H5, H6, H7, H8, H9, H10, H11.
  rewrite ?Nat.min_id, ?Nat.eqb_refl. reflexivity.
Qed.

Lemma transform_frame_row_count_witness :
  has_rows 2 sample_table = true /\
  exists out,
    transform_frame sample_table = Ok out /\ out_has_rows 2 out = true.
Proof.
  split; [reflexivity|].
  destruct (transform_frame sample_table) as [out|e] eqn:E.
  - exists out. split; [reflexivity|].
    apply (transform_frame_row_count 2 sample_table out eq_refl E).
  - vm_compute in E. discriminate E.
Defined.

(** X8. The four columns the metrics are computed from are looked up in a
    fixed order, and the first one absent is the one the [KeyError] names,
    whatever else is absent: "DK Salary", then "Large Field", then
    "DK Ceiling", then "DK Proj". *)
Theorem transform_frame_first_missing (df : DataFrame) :
  (DK_Salary df = None ->
     transform_frame df = Raise (KeyError ["DK Salary"%string])) /\
  (DK_Salary df <> None -> Large_Field df = None ->
     transform_frame df = Raise (KeyError ["Large Field"%string])) /\
  (DK_Salary df <> None -> Large_Field df <> None -> DK_Ceiling df = None ->
     transform_frame df = Raise (KeyError ["DK Ceiling"%string])) /\
  (DK_Salary df <> None -> Large_Field df <> None -> DK_Ceiling df <> None ->
     DK_Proj df = None ->
     transform_frame df = Raise (KeyError ["DK Proj"%string])).
Proof.
  unfold transform_frame, getitem, bind.
  destruct (DK_Salary df), (Large_Field df), (DK_Ceiling df), (DK_Proj df);
    repeat split; intros; try reflexivity; try congruence.
Qed.

Lemma transform_frame_first_missing_witness :
  DK_Salary (with_Small_Field None
               {| Player := None; DK_Pos := None; Team := None; Opp := None;
                  DK_Salary := Some []; DK_Proj := None; DK_Value := None;
                  Small_Field := None; Large_Field := None; DK_Floor := None;
                  DK_Ceiling := None; id_ := None |}) <> None /\
  transform_frame
    (with_Small_Field None
       {| Player := None; DK_Pos := None; Team := None; Opp := None;
          DK_Salary := Some []; DK_Proj := None; DK_Value := None;
          Small_Field := None; Large_Field := None; DK_Floor := None;
          DK_Ceiling := None; id_ := None |}) =
  Raise (KeyError ["Large Field"%string]).
Proof.
  split; [discriminate|].
  apply (proj1 (proj2 (transform_frame_first_missing _)));
    [discriminate | reflexivity].
Defined.

(** X9. When the four computed-from columns are present and the ownership
    ranks format, but the selection of the output columns finds some
    absent, the [KeyError] lists every absent column of the selection, in
    the order of the selection. *)
Theorem transform_frame_selection_error
    (df : DataFrame) (salary large : list cell) (ceiling proj : list float)
    (shown : list string) :
  DK_Salary df = Some salary ->
  Large_Field df = Some large ->
  DK_Ceiling df = Some ceiling ->
  DK_Proj df = Some proj ->
  OWNERSHIP_PCT_RANK_out (OWNERSHIP_PCT_RANK (large_field_pct large)) =
    Ok shown ->
  forallb (has_column df) out_cols_read = false ->
  transform_frame df =
  Raise (KeyError (filter (fun c => negb (has_column df c)) out_cols_read)).
Proof.
  intros Hs Hl Hc Hp Ho Hmiss.
  unfold transform_frame, getitem, bind. rewrite Hs, Hl, Hc, Hp, Ho.
  destruct df as [player pos team opp salary' proj' value small large' floor
                    ceiling' ident].
  cbn in *. subst.
  destruct player, pos, team, opp, value, floor, ident;
    try reflexivity; discriminate Hmiss.
Qed.

Lemma transform_frame_selection_error_witness :
  transform_frame
    {| Player := None; DK_Pos := Some []; Team := Some []; Opp := None;
       DK_Salary := Some []; DK_Proj := Some []; DK_Value := Some [];
       Small_Field := None; Large_Field := Some []; DK_Floor := None;
       DK_Ceiling := Some []; id_ := Some [] |} =
  Raise (KeyError ["Player"; "Opp"; "DK Floor"]%string).
Proof.
  apply (transform_frame_selection_error
           {| Player := None; DK_Pos := Some []; Team := Some []; Opp := None;
              DK_Salary := Some []; DK_Proj := Some []; DK_Value := Some [];
              Small_Field := None; Large_Field := Some []; DK_Floor := None;
              DK_Ceiling := Some []; id_ := Some [] |}
           [] [] [] [] []);
    reflexivity.
Defined.

(** X11. On a table of at most one row the three rank columns do not
    depend on the values: a run that succeeds writes "0.00%" for the
    ceiling rank, "0%" for the ownership rank and "0.0%" for the leverage
    delta, also when the one ceiling is NaN. *)
Theorem transform_frame_single_row
    (df : DataFrame) (out : OutFrame) (ceiling : list float)
    (large : list cell) :
  DK_Ceiling df = Some ceiling ->
  Large_Field df = Some large ->
  List.length large = List.length ceiling ->
  (List.length ceiling <= 1)%nat ->
  transform_frame df = Ok out ->
  out_CEILING_PCT_RANK out = repeat "0.00%"%string (List.length ceiling) /\
  out_OWNERSHIP_PCT_RANK out = repeat "0%"%string (List.length ceiling) /\
  out_leverage_delta out = repeat "0.0%"%string (List.length ceiling).
Proof.
  intros Hc Hl Hlen Hn Hrun.
  destruct (transform_frame_Ok df out Hrun)
    as (salary' & large' & ceiling' & proj' & _ & Hl' & Hc' & _ & _ & _ & _
        & _ & Hcr & Hor & Hd).
  assert (ceiling' = ceiling) by congruence.
  assert (large' = large) by congruence. subst ceiling' large'.
  rewrite Hcr, Hd. clear Hcr Hd Hrun Hc Hl Hl' Hc'.
  destruct ceiling as [|c [|c' ceiling]]; [| |simpl in Hn; lia];
    destruct large as [|p [|p' large]]; try discriminate Hlen.
  - cbn in Hor. injection Hor as <-. repeat split.
  - assert (Ho : OWNERSHIP_PCT_RANK_out
                   (OWNERSHIP_PCT_RANK (large_field_pct [p])) =
                 Ok ["0%"%string]) by reflexivity.
    rewrite Ho in Hor. injection Hor as <-. repeat split.
Qed.

Lemma transform_frame_single_row_witness :
  exists out,
    transform_frame one_row_table = Ok out /\
    out_CEILING_PCT_RANK out = ["0.00%"%string] /\
    out_OWNERSHIP_PCT_RANK out = ["0%"%string] /\
    out_leverage_delta out = ["0.0%"%string].
Proof.
  destruct (transform_frame one_row_table) as [out|e] eqn:E.
  - exists out. split; [reflexivity|].
    apply (transform_frame_single_row one_row_table out [F64.nan]
             [PyStr "12.5%"] eq_refl eq_refl eq_refl (le_n 1) E).
  - vm_compute in E. discriminate E.
Defined.

(** * Reading back a written salary cell *)

(** ** Rocq strings as Python text *)

Lemma of_string_cons (c : ascii) (t : string) :
  of_string (String c t) = ch c :: of_string t.
Proof. reflexivity. Qed.

Lemma of_string_app (a b : string) :
  of_string (append a b) = (of_string a ++ of_string b)%list.
Proof.
  induction a as [|c a IH]; [reflexivity|].
  cbn [append]. rewrite !of_string_cons, IH. reflexivity.
Qed.

Lemma of_string_list (l : list ascii) :
  of_string (string_of_list_ascii l) = map N_of_ascii l.
Proof.
  unfold of_string. rewrite list_ascii_of_string_of_list_ascii. reflexivity.
Qed.

(** ** Characters of the formatted text *)

Lemma uint_digits (u : Decimal.uint) :
  forallb is_digit (of_string (NilEmpty.string_of_uint u)) = true.
Proof.
  induction u; cbn [NilEmpty.string_of_uint]; try reflexivity;
    rewrite of_string_cons; cbn [forallb]; rewrite IHu; reflexivity.
Qed.

Lemma str_of_Z_digits (z : Z) :
  0 <= z -> forallb is_digit (of_string (str_of_Z z)) = true.
Proof.
  intros Hz. unfold str_of_Z.
  destruct (Z.ltb_spec z 0) as [Hneg|_]; [lia|].
  unfold NilZero.string_of_uint.
  destruct (N.to_uint (Z.to_N (Z.abs z))) eqn:E; try reflexivity;
    rewrite <- E; apply uint_digits.
Qed.

Lemma str_of_Z_nonempty (z : Z) :
  0 <= z -> of_string (str_of_Z z) <> [].
Proof.
  intros Hz. unfold str_of_Z.
  destruct (Z.ltb_spec z 0) as [Hneg|_]; [lia|].
  unfold NilZero.string_of_uint.
  destruct (N.to_uint (Z.to_N (Z.abs z))); discriminate.
Qed.

(** ** Reading digits *)

Lemma read_digits_app (s rest : pystr) (acc cnt : Z) :
  forallb is_digit s = true ->
  read_digits (s ++ rest)%list acc cnt =
  read_digits rest (digits_value s acc) (cnt + Z.of_nat (List.length s)).
Proof.
  revert acc cnt. induction s as [|c s IH]; intros acc cnt H.
  - simpl. rewrite Z.add_0_r. reflexivity.
  - cbn [forallb] in H. apply andb_prop in H. destruct H as [Hc Hs].
    cbn [app read_digits digits_value List.length]. rewrite Hc.
    rewrite (IH _ _ Hs). f_equal. lia.
Qed.

Lemma read_digits_all (s : pystr) (acc cnt : Z) :
  forallb is_digit s = true ->
  read_digits s acc cnt =
  (digits_value s acc, cnt + Z.of_nat (List.length s), []).
Proof.
  intros H. rewrite <- (app_nil_r s) at 1.
  rewrite (read_digits_app s [] acc cnt H). reflexivity.
Qed.

Lemma digits_value_acc (u : Decimal.uint) (acc : positive) :
  digits_value (of_string (NilEmpty.string_of_uint u)) (Zpos acc) =
  Zpos (Pos.of_uint_acc u acc).
Proof.
  revert acc. induction u; intros acc;
    cbn [NilEmpty.string_of_uint Pos.of_uint_acc]; try reflexivity;
    rewrite of_string_cons; cbn [digits_value];
    match goal with
    | |- context [digit_val ?c] =>
        let v := eval vm_compute in (digit_val c) in
        change (digit_val c) with v
    end;
    match goal with
    | |- digits_value _ ?z = Zpos (Pos.of_uint_acc _ ?q) =>
        replace z with (Zpos q) by lia
    end; apply IHu.
Qed.

Lemma digits_value_0 (u : Decimal.uint) :
  digits_value (of_string (NilEmpty.string_of_uint u)) 0 =
  Z.of_N (Pos.of_uint u).
Proof.
  induction u; cbn [NilEmpty.string_of_uint Pos.of_uint];
    try reflexivity; rewrite of_string_cons; cbn [digits_value];
    match goal with
    | |- context [digit_val ?c] =>
        let v := eval vm_compute in (digit_val c) in
        change (digit_val c) with v
    end;
    try (match goal with
         | |- digits_value _ ?z = Z.of_N (N.pos (Pos.of_uint_acc _ ?q)) =>
             change z with (Zpos q)
         end; apply digits_value_acc).
  exact IHu.
Qed.

Lemma digits_value_str_of_Z (z : Z) :
  0 <= z -> digits_value (of_string (str_of_Z z)) 0 = z.
Proof.
  intros Hz. unfold str_of_Z.
  destruct (Z.ltb_spec z 0) as [Hneg|_]; [lia|].
  assert (E : Z.of_N (N.of_uint (N.to_uint (Z.to_N (Z.abs z)))) = z).
  { rewrite DecimalN.Unsigned.of_to. lia. }
  unfold N.of_uint in E. unfold NilZero.string_of_uint.
  destruct (N.to_uint (Z.to_N (Z.abs z))) eqn:Eu;
    rewrite <- E; rewrite <- digits_value_0; reflexivity.
Qed.

Lemma digits_value_shift (s : pystr) (acc : Z) :
  digits_value s acc =
  acc * 10 ^ Z.of_nat (List.length s) + digits_value s 0.
Proof.
  revert acc. induction s as [|c s IH]; intros acc.
  - simpl. lia.
  - cbn [digits_value List.length].
    rewrite (IH (10 * acc + digit_val c)), (IH (10 * 0 + digit_val c)).
    rewrite Nat2Z.inj_succ, Z.pow_succ_r by lia. ring.
Qed.

Lemma two_digits (n : nat) :
  (n < 100)%nat ->
  forallb is_digit (of_string (zfill 2 (str_of_Z (Z.of_nat n)))) = true /\
  List.length (of_string (zfill 2 (str_of_Z (Z.of_nat n)))) = 2%nat /\
  digits_value (of_string (zfill 2 (str_of_Z (Z.of_nat n)))) 0 = Z.of_nat n.
Proof.
  intros Hn.
  do 100 (destruct n as [|n]; [vm_compute; repeat split|]).
  lia.
Qed.

Lemma div_half_even_nonneg (num den : Z) :
  0 <= num -> 0 < den -> 0 <= div_half_even num den.
Proof.
  intros Hn Hd. unfold div_half_even.
  assert (0 <= num / den) by (apply Z.div_pos; lia).
  destruct (_ || _); lia.
Qed.

Lemma scaled_round_nonneg (d : nat) (x : float) : 0 <= scaled_round d x.
Proof.
  destruct x as [s|s| |s m e]; unfold scaled_round; try lia.
  assert (Hp : 0 < 10 ^ Z.of_nat d) by (apply Z.pow_pos_nonneg; lia).
  assert (Hm : 0 <= Zpos m * 10 ^ Z.of_nat d) by (apply Z.mul_nonneg_nonneg; lia).
  destruct (Z.leb_spec 0 e).
  - assert (0 < 2 ^ e) by (apply Z.pow_pos_nonneg; lia).
    apply Z.mul_nonneg_nonneg; lia.
  - apply div_half_even_nonneg; [exact Hm|]. apply Z.pow_pos_nonneg; lia.
Qed.

(** ** Plain text goes through the preparation untouched *)

Lemma plain_char_facts (c : N) :
  plain_char c = true ->
  (c <? 127)%N = true /\ is_space c = false /\ is_c_space c = false /\
  N.eqb c (ch "_") = false /\ N.eqb c (ch "$") = false /\
  N.eqb c (ch ",") = false.
Proof.
  unfold plain_char, is_digit, is_space, is_c_space.
  change (ch "_") with 95%N. change (ch "-") with 45%N.
  change (ch ".") with 46%N. change (ch "$") with 36%N.
  change (ch ",") with 44%N.
  intros H. repeat split; bool_to_prop; lia.
Qed.

Lemma digit_facts (c : N) :
  is_digit c = true ->
  plain_char c = true /\ N.eqb c (ch "-") = false /\
  N.eqb c (ch "+") = false /\ N.eqb c (ch ".") = false.
Proof.
  unfold plain_char, is_digit.
  change (ch "-") with 45%N. change (ch ".") with 46%N.
  change (ch "+") with 43%N.
  intros H. repeat split; bool_to_prop; lia.
Qed.

Lemma to_ascii_id (s : pystr) :
  forallb (fun c => (c <? 127)%N) s = true -> to_ascii s = s.
Proof.
  induction s as [|c s IH]; [reflexivity|].
  cbn [forallb]. intros H. apply andb_prop in H. destruct H as [Hc Hs].
  cbn [to_ascii]. unfold ascii_of. rewrite Hc, (IH Hs). reflexivity.
Qed.

Lemma py_float_plain (s : pystr) :
  forallb plain_char s = true -> py_float s = read_float s.
Proof.
  intros H. unfold py_float.
  rewrite to_ascii_id
    by (apply (forallb_impl plain_char); [|exact H];
        intros c Hc; apply (plain_char_facts c Hc)).
  rewrite strip_by_id
    by (apply (forallb_impl plain_char); [|exact H];
        intros c Hc; destruct (plain_char_facts c Hc) as (_ & _ & -> & _);
        reflexivity).
  reflexivity.
Qed.

Lemma remove_char_id (c : N) (s : pystr) :
  forallb (fun a => negb (N.eqb a c)) s = true -> remove_char c s = s.
Proof.
  induction s as [|a s IH]; [reflexivity|].
  cbn [forallb]. rewrite andb_true_iff, negb_true_iff. intros [Ha Hs].
  rewrite remove_char_cons, Ha, (IH Hs). reflexivity.
Qed.

Lemma remove_char_app (c : N) (a b : pystr) :
  remove_char c (a ++ b)%list = (remove_char c a ++ remove_char c b)%list.
Proof.
  induction a as [|d a IH]; [reflexivity|].
  cbn [app remove_char]. destruct (N.eqb d c); [exact IH|].
  cbn [app]. rewrite IH. reflexivity.
Qed.

Lemma remove_char_comm (c d : N) (s : pystr) :
  remove_char c (remove_char d s) = remove_char d (remove_char c s).
Proof.
  induction s as [|a s IH]; [reflexivity|].
  cbn [remove_char].
  destruct (N.eqb a d) eqn:Ed, (N.eqb a c) eqn:Ec;
    cbn [remove_char]; rewrite ?Ed, ?Ec, IH; reflexivity.
Qed.

Lemma digits_without (c : N) (s : pystr) :
  is_digit c = false ->
  forallb is_digit s = true ->
  forallb (fun a => negb (N.eqb a c)) s = true.
Proof.
  intros Hc. apply forallb_impl. intros a Ha.
  destruct (N.eqb_spec a c) as [->|_]; [congruence | reflexivity].
Qed.

(** ** Reading a formatted number *)

Lemma read_decimal_formatted (sg : bool) (ip fp : pystr) :
  forallb is_digit ip = true ->
  forallb is_digit fp = true ->
  List.length fp = 2%nat ->
  read_decimal sg (ip ++ ch "." :: fp)%list =
  Some (decimal_to_float sg (digits_value fp (digits_value ip 0)) (-2)).
Proof.
  intros Hip Hfp Hlen. unfold read_decimal.
  rewrite (read_digits_app ip (ch "." :: fp) 0 0 Hip).
  cbn [read_digits]. change (is_digit (ch ".")) with false.
  cbv beta iota zeta.
  change (N.eqb (ch ".") (ch ".")) with true. cbv beta iota zeta.
  rewrite (read_digits_all fp _ 0 Hfp). cbv beta iota zeta.
  rewrite Hlen.
  destruct (Z.ltb_spec 0 (0 + Z.of_nat (List.length ip) + (0 + Z.of_nat 2)))
    as [_|Hbad]; [|lia].
  reflexivity.
Qed.

Lemma py_float_formatted (sg : bool) (ip fp : pystr) :
  forallb is_digit ip = true ->
  ip <> [] ->
  forallb is_digit fp = true ->
  List.length fp = 2%nat ->
  py_float ((if sg then [ch "-"] else []) ++ ip ++ ch "." :: fp)%list =
  Some (decimal_to_float sg (digits_value fp (digits_value ip 0)) (-2)).
Proof.
  intros Hip Hne Hfp Hlen.
  assert (Hplain : forallb plain_char
                     ((if sg then [ch "-"] else []) ++ ip ++ ch "." :: fp)%list
                   = true).
  { rewrite !forallb_app. cbn [forallb].
    rewrite (forallb_impl is_digit plain_char ip
               (fun a H => proj1 (digit_facts a H)) Hip).
    rewrite (forallb_impl is_digit plain_char fp
               (fun a H => proj1 (digit_facts a H)) Hfp).
    destruct sg; reflexivity. }
  rewrite (py_float_plain _ Hplain). unfold read_float.
  rewrite drop_underscores_id;
    [| reflexivity
     | apply (forallb_impl plain_char); [|exact Hplain];
       intros a Ha; destruct (plain_char_facts a Ha) as (_ & _ & _ & -> & _);
       reflexivity].
  assert (Hsign : read_sign ((if sg then [ch "-"] else []) ++
                             ip ++ ch "." :: fp)%list =
                  (sg, (ip ++ ch "." :: fp)%list)).
  { destruct sg; [reflexivity|].
    destruct ip as [|c t]; [contradiction|].
    cbn [app read_sign].
    cbn [forallb] in Hip. apply andb_prop in Hip. destruct Hip as [Hc _].
    destruct (digit_facts c Hc) as (_ & -> & -> & _). reflexivity. }
  rewrite Hsign.
  rewrite (read_decimal_formatted sg ip fp Hip Hfp Hlen). reflexivity.
Qed.

(** ** Taking the separators out *)

Lemma remove_char_map (c : N) (l : list ascii) :
  remove_char c (map N_of_ascii l) =
  map N_of_ascii (filter (fun a => negb (N.eqb (N_of_ascii a) c)) l).
Proof.
  induction l as [|a l IH]; [reflexivity|].
  cbn [map remove_char filter].
  destruct (N.eqb (N_of_ascii a) c); cbn [negb map]; rewrite IH;
    reflexivity.
Qed.

Lemma filter_group3_rev (l : list ascii) (k : nat) :
  filter (fun a => negb (N.eqb (N_of_ascii a) (ch ","))) (group3_rev l k) =
  filter (fun a => negb (N.eqb (N_of_ascii a) (ch ","))) l.
Proof.
  revert k. induction l as [|c l IH]; intros k; [reflexivity|].
  cbn [group3_rev].
  destruct k as [|[|[|k]]], l as [|c' l]; cbn [filter];
    try (rewrite IH; reflexivity); reflexivity.
Qed.

Lemma remove_comma_group3 (s : string) :
  remove_char (ch ",") (of_string (group3 s)) =
  remove_char (ch ",") (of_string s).
Proof.
  unfold group3.
  rewrite of_string_list, remove_char_map, filter_rev, filter_group3_rev,
    filter_rev, rev_involutive, <- remove_char_map.
  reflexivity.
Qed.

Lemma plain_text_reads (sg : bool) (n : Z) :
  0 <= n ->
  py_float (of_string
              (append (if sg then "-" else "")
                 (append (str_of_Z (n / 100))
                    (String "." (zfill 2 (str_of_Z (n mod 100))))))) =
  Some (decimal_to_float sg n (-2)).
Proof.
  intros Hn.
  assert (Hq : 0 <= n / 100) by (apply Z.div_pos; lia).
  assert (Hr : 0 <= n mod 100 < 100) by (apply Z.mod_pos_bound; lia).
  destruct (two_digits (Z.to_nat (n mod 100)) ltac:(lia)) as (Hd & Hl & Hv).
  rewrite Z2Nat.id in Hd, Hl, Hv by lia.
  rewrite !of_string_app, of_string_cons.
  replace (of_string (if sg then "-" else ""))
    with (if sg then [ch "-"] else []) by (destruct sg; reflexivity).
  rewrite (py_float_formatted sg _ _ (str_of_Z_digits _ Hq)
             (str_of_Z_nonempty _ Hq) Hd Hl).
  do 2 f_equal.
  rewrite digits_value_shift, Hl, Hv, (digits_value_str_of_Z _ Hq).
  change (10 ^ Z.of_nat 2) with 100.
  rewrite (Z.div_mod n 100) at 3 by lia. lia.
Qed.

Lemma format_f_two (grouping : bool) (x : float) :
  F64.is_nan x = false -> F64.is_inf x = false ->
  format_f grouping 2 x =
  append (if sign_bit x then "-" else "")
    (append (if grouping then group3 (str_of_Z (scaled_round 2 x / 100))
             else str_of_Z (scaled_round 2 x / 100))
            (String "." (zfill 2 (str_of_Z (scaled_round 2 x mod 100))))).
Proof.
  destruct x; intros Hn Hi; try discriminate; reflexivity.
Qed.

Lemma format_f_parts (x : float) :
  0 <= scaled_round 2 x / 100 /\
  forallb is_digit (of_string (str_of_Z (scaled_round 2 x / 100))) = true /\
  forallb is_digit
    (of_string (zfill 2 (str_of_Z (scaled_round 2 x mod 100)))) = true.
Proof.
  assert (Hq : 0 <= scaled_round 2 x / 100)
    by (apply Z.div_pos; [apply scaled_round_nonneg | lia]).
  assert (Hr : 0 <= scaled_round 2 x mod 100 < 100)
    by (apply Z.mod_pos_bound; lia).
  destruct (two_digits (Z.to_nat (scaled_round 2 x mod 100)) ltac:(lia))
    as (Hd & _ & _).
  rewrite Z2Nat.id in Hd by lia.
  split; [exact Hq|]. split; [apply str_of_Z_digits; exact Hq | exact Hd].
Qed.

Lemma format_f_ungrouped (x : float) :
  F64.is_nan x = false -> F64.is_inf x = false ->
  remove_char (ch ",") (of_string (format_f true 2 x)) =
  of_string (format_f false 2 x).
Proof.
  intros Hn Hi. rewrite !(format_f_two _ x Hn Hi).
  destruct (format_f_parts x) as (Hq & Hip & Hd).
  rewrite !of_string_app, !of_string_cons, !remove_char_app,
    remove_comma_group3.
  rewrite (remove_char_id (ch ",") (of_string (str_of_Z _)))
    by (apply digits_without; [reflexivity | exact Hip]).
  rewrite remove_char_cons. change (N.eqb (ch ".") (ch ",")) with false.
  cbv iota.
  rewrite (remove_char_id (ch ",") (of_string (zfill _ _)))
    by (apply digits_without; [reflexivity | exact Hd]).
  destruct (sign_bit x); reflexivity.
Qed.

Lemma format_f_no_dollar (x : float) :
  F64.is_nan x = false -> F64.is_inf x = false ->
  remove_char (ch "$") (of_string (format_f false 2 x)) =
  of_string (format_f false 2 x).
Proof.
  intros Hn Hi. rewrite !(format_f_two _ x Hn Hi).
  destruct (format_f_parts x) as (Hq & Hip & Hd).
  rewrite !of_string_app, !of_string_cons, !remove_char_app.
  rewrite (remove_char_id (ch "$") (of_string (str_of_Z _)))
    by (apply digits_without; [reflexivity | exact Hip]).
  rewrite remove_char_cons. change (N.eqb (ch ".") (ch "$")) with false.
  cbv iota.
  rewrite (remove_char_id (ch "$") (of_string (zfill _ _)))
    by (apply digits_without; [reflexivity | exact Hd]).
  destruct (sign_bit x); reflexivity.
Qed.

Lemma rstrip_by_app (sp : N -> bool) (a b : pystr) :
  rstrip_by sp b = b -> b <> [] ->
  rstrip_by sp (a ++ b)%list = (a ++ b)%list.
Proof.
  intros Hb Hne. induction a as [|c a IH]; [exact Hb|].
  cbn [app]. rewrite rstrip_by_cons, IH.
  destruct (a ++ b) as [|d r] eqn:E; [|reflexivity].
  apply app_eq_nil in E. destruct E as [_ E]. contradiction.
Qed.

(** The written salary text has no white space at either end. *)
Lemma salary_text_stripped (x : float) :
  F64.is_nan x = false -> F64.is_inf x = false ->
  strip (of_string (String "$" (format_f true 2 x))) =
  of_string (String "$" (format_f true 2 x)).
Proof.
  intros Hn Hi. unfold strip, strip_by.
  rewrite of_string_cons. cbn [lstrip_by].
  change (is_space (ch "$")) with false. cbv iota.
  rewrite (format_f_two _ x Hn Hi).
  destruct (format_f_parts x) as (Hq & Hip & Hd).
  rewrite !of_string_app, of_string_cons.
  rewrite app_assoc.
  change (ch "$" :: (?a ++ ?b) ++ ?c) with ((ch "$" :: a ++ b) ++ c).
  apply rstrip_by_app; [|discriminate].
  apply rstrip_by_id. cbn [forallb].
  change (negb (is_space (ch "."))) with true. cbn [andb].
  apply (forallb_impl is_digit); [|exact Hd].
  intros c Hc. destruct (digit_facts c Hc) as (Hp & _).
  destruct (plain_char_facts c Hp) as (_ & -> & _). reflexivity.
Qed.

Lemma salary_text_ungrouped (x : float) :
  F64.is_nan x = false -> F64.is_inf x = false ->
  remove_char (ch ",")
    (remove_char (ch "$") (of_string (String "$" (format_f true 2 x)))) =
  of_string (format_f false 2 x).
Proof.
  intros Hn Hi. rewrite of_string_cons, remove_char_cons.
  change (N.eqb (ch "$") (ch "$")) with true. cbv iota.
  rewrite remove_char_comm, (format_f_ungrouped x Hn Hi).
  apply format_f_no_dollar; assumption.
Qed.

(** X13. Reading a written salary column back with [parse_salary]: a blank
    cell is missing again, an infinity is the same infinity, and any other
    number comes back as the float nearest to it rounded to two decimals,
    with its sign. *)
Theorem salary_cell_reread (col : list float) :
  map (fun c : string => parse_salary (PyStr c)) (DK_Salary_out col) =
  map (fun x =>
         match x with
         | S754_nan => F64.nan
         | S754_infinity s => S754_infinity s
         | _ => decimal_to_float (sign_bit x) (scaled_round 2 x) (-2)
         end) col.
Proof.
  unfold DK_Salary_out. rewrite map_map. apply map_ext. intros x.
  destruct (F64.is_nan x) eqn:Hn; [destruct x; try discriminate; reflexivity|].
  destruct (F64.is_inf x) eqn:Hi.
  { destruct x as [|[|]| |]; try discriminate; reflexivity. }
  unfold notna. rewrite Hn. cbn [negb].
  unfold parse_salary.
  rewrite (salary_text_stripped x Hn Hi), (salary_text_ungrouped x Hn Hi).
  rewrite (format_f_two false x Hn Hi).
  rewrite (plain_text_reads (sign_bit x) (scaled_round 2 x)
             (scaled_round_nonneg 2 x)).
  destruct x; try discriminate; reflexivity.
Qed.

(** * Further properties of the metrics *)

(** X14. A row whose large-field ownership cell is missing, or holds only
    percent signs and white space, is treated as owned by nobody: its
    ownership fraction is 0.0 and its leverage score is its ceiling times
    1.0. *)
Theorem missing_ownership_row
    (large : list cell) (ceiling : list float) (i : nat) (s : cell)
    (c : float) :
  nth_error large i = Some s ->
  nth_error ceiling i = Some c ->
  (isna s = true \/ exists t, s = PyStr t /\ blank_percent t = true) ->
  nth_error (large_field_pct large) i = Some F64.zero /\
  nth_error (OWN_FRAC (large_field_pct large)) i = Some F64.zero /\
  nth_error (LEVERAGE_SCORE ceiling (large_field_pct large)) i =
    Some (F64.mul c F64.one).
Proof.
  intros Hs Hc Hmiss.
  assert (Hz : parse_percent_str s = F64.zero).
  { destruct Hmiss as [Hna | (t & -> & Hb)].
    - destruct s; try reflexivity. discriminate Hna.
    - apply parse_percent_str_blank. exact Hb. }
  assert (Hp : nth_error (large_field_pct large) i = Some F64.zero).
  { unfold large_field_pct. rewrite nth_error_map, Hs. cbn [option_map].
    rewrite Hz. reflexivity. }
  split; [exact Hp|]. split.
  - unfold OWN_FRAC. rewrite nth_error_map, Hp. reflexivity.
  - unfold LEVERAGE_SCORE.
    rewrite (nth_error_map2 F64.mul ceiling _ i c
               (F64.sub F64.one (F64.div F64.zero F64.hundred)) Hc).
    + reflexivity.
    + rewrite nth_error_map, Hp. reflexivity.
Qed.

Lemma missing_ownership_row_witness :
  nth_error [PyStr "12%"; PyStr " % "] 1 = Some (PyStr " % ") /\
  nth_error [F64.of_Z 30; F64.of_Z 18] 1 = Some (F64.of_Z 18) /\
  blank_percent " % " = true /\
  nth_error (OWN_FRAC (large_field_pct [PyStr "12%"; PyStr " % "])) 1 =
    Some F64.zero /\
  nth_error
    (LEVERAGE_SCORE [F64.of_Z 30; F64.of_Z 18]
       (large_field_pct [PyStr "12%"; PyStr " % "])) 1 =
    Some (F64.mul (F64.of_Z 18) F64.one).
Proof.
  split; [reflexivity|]. split; [reflexivity|]. split; [reflexivity|].
  apply (missing_ownership_row [PyStr "12%"; PyStr " % "]
           [F64.of_Z 30; F64.of_Z 18] 1 (PyStr " % ") (F64.of_Z 18)
           eq_refl eq_refl).
  right. exists " % "%string. split; reflexivity.
Defined.

